(** * FeedGuideRunner (src/parser.py): a shallow embedding of the step
    interpreter [FeedGuideRunner.run] and its helpers
    [_safe_click_by_text] and [_download_via_requests].

    The browser (Playwright), the network ([requests]) and the file system
    are external: each call the code makes on them is recorded in an event
    log on the page it targets, and its outcome is given by an oracle of the
    environment record [env], which sees the whole state (log included), so
    its answers may depend on the complete history of the run. *)

From Stdlib Require Import String Ascii List Bool ZArith Arith Lia.
Import ListNotations.
Open Scope string_scope.

(** ** Python values and dicts *)

(** JSON-like values that appear in a feed-guide step. *)
Inductive val : Type :=
| VNull
| VBool (b : bool)
| VNum (z : Z)
| VStr (s : string).

(** Python truthiness. *)
Definition truthy (v : val) : bool :=
  match v with
  | VNull => false
  | VBool b => b
  | VNum z => negb (Z.eqb z 0)
  | VStr s => negb (String.eqb s "")
  end.

(** A dict with string keys, in insertion order. *)
Definition dict := list (string * val).

Fixpoint lookup (d : dict) (k : string) : option val :=
  match d with
  | [] => None
  | (k', v) :: d' => if String.eqb k k' then Some v else lookup d' k
  end.

(** [d.get(k, dflt)] *)
Definition dget_or (d : dict) (k : string) (dflt : val) : val :=
  match lookup d k with Some v => v | None => dflt end.

(** [d.get(k)] *)
Definition dget (d : dict) (k : string) : val := dget_or d k VNull.

(** [k in d] *)
Definition has_key (d : dict) (k : string) : bool :=
  match lookup d k with Some _ => true | None => false end.

(** [d[k] = v]: an existing key keeps its position, a new key goes last. *)
Fixpoint dset (k : string) (v : val) (d : dict) : dict :=
  match d with
  | [] => [(k, v)]
  | (k', v') :: d' =>
      if String.eqb k k' then (k', v) :: d' else (k', v') :: dset k v d'
  end.

(** [d.update(r)] *)
Definition dupdate (d r : dict) : dict :=
  fold_left (fun acc kv => dset (fst kv) (snd kv) acc) r d.

(** ** String helpers (ASCII model of Python's [str] methods) *)

Definition lower_ascii (c : ascii) : ascii :=
  let n := nat_of_ascii c in
  if (65 <=? n)%nat && (n <=? 90)%nat then ascii_of_nat (n + 32)%nat else c.

(** [s.lower()] *)
Fixpoint lower (s : string) : string :=
  match s with
  | EmptyString => EmptyString
  | String c s' => String (lower_ascii c) (lower s')
  end.

Definition is_space (c : ascii) : bool :=
  let n := nat_of_ascii c in
  ((n =? 32) || ((9 <=? n) && (n <=? 13)))%nat.

Fixpoint lstrip (s : string) : string :=
  match s with
  | String c s' => if is_space c then lstrip s' else s
  | EmptyString => EmptyString
  end.

Fixpoint rev_string (s : string) : string :=
  match s with
  | EmptyString => EmptyString
  | String c s' => rev_string s' ++ String c EmptyString
  end.

(** [s.strip()] *)
Definition strip (s : string) : string :=
  rev_string (lstrip (rev_string (lstrip s))).

Fixpoint is_prefix (p s : string) : bool :=
  match p, s with
  | EmptyString, _ => true
  | String _ _, EmptyString => false
  | String a p', String b s' => Ascii.eqb a b && is_prefix p' s'
  end.

(** [p in s] *)
Fixpoint contains (p s : string) : bool :=
  match s with
  | EmptyString => is_prefix p s
  | String _ s' => is_prefix p s || contains p s'
  end.

(** [s.split(c)] for a one-character separator. *)
Fixpoint split_char (c : ascii) (s : string) : list string :=
  match s with
  | EmptyString => [EmptyString]
  | String x s' =>
      let r := split_char c s' in
      if Ascii.eqb x c then EmptyString :: r
      else match r with
           | h :: t => String x h :: t
           | [] => [String x EmptyString]
           end
  end.

(** [url.split("/")[-1]] *)
Definition last_segment (url : string) : string :=
  last (split_char "/" url) EmptyString.

(** [os.path.join(a, b)] (POSIX): an absolute [b] discards [a]. *)
Definition path_join (a b : string) : string :=
  if is_prefix "/" b then b
  else if String.eqb a "" then b
  else if String.eqb (String.substring (String.length a - 1) 1 a) "/" then a ++ b
  else a ++ "/" ++ b.

Fixpoint uint_to_string (u : Decimal.uint) : string :=
  match u with
  | Decimal.Nil => ""
  | Decimal.D0 u' => "0" ++ uint_to_string u'
  | Decimal.D1 u' => "1" ++ uint_to_string u'
  | Decimal.D2 u' => "2" ++ uint_to_string u'
  | Decimal.D3 u' => "3" ++ uint_to_string u'
  | Decimal.D4 u' => "4" ++ uint_to_string u'
  | Decimal.D5 u' => "5" ++ uint_to_string u'
  | Decimal.D6 u' => "6" ++ uint_to_string u'
  | Decimal.D7 u' => "7" ++ uint_to_string u'
  | Decimal.D8 u' => "8" ++ uint_to_string u'
  | Decimal.D9 u' => "9" ++ uint_to_string u'
  end.

Definition z_to_string (z : Z) : string :=
  match z with
  | Z0 => "0"
  | Zpos p => uint_to_string (Pos.to_uint p)
  | Zneg p => "-" ++ uint_to_string (Pos.to_uint p)
  end.

(** [str(v)] *)
Definition py_str (v : val) : string :=
  match v with
  | VNull => "None"
  | VBool true => "True"
  | VBool false => "False"
  | VNum z => z_to_string z
  | VStr s => s
  end.

Definition type_name (v : val) : string :=
  match v with
  | VNull => "NoneType"
  | VBool _ => "bool"
  | VNum _ => "int"
  | VStr _ => "str"
  end.

(** ** Exceptions, page calls, state and environment *)

(** A raised Python exception; only [PlaywrightTimeoutError] is told apart,
    since the browser-triggered download catches it alone. [str(e)] is the
    message. *)
Inductive exn : Type :=
| ETimeout (msg : string)
| EOther (msg : string).

Definition exn_msg (e : exn) : string :=
  match e with ETimeout m => m | EOther m => m end.

(** Calls made on a page (or on an element or a download of that page). *)
Inductive op : Type :=
| OGoto (url : val)                 (* page.goto *)
| OWaitForSelector (sel : val)      (* page.wait_for_selector *)
| OFill (sel v : val)               (* page.fill *)
| OClick (sel : val)                (* page.click *)
| OClickByText (text : val)         (* page.get_by_text(text).first.click *)
| OQueryAll                         (* page.query_selector_all *)
| OInnerText (el : nat)             (* element.inner_text *)
| OElemClick (el : nat)             (* element.click *)
| OWaitLoad                         (* page.wait_for_load_state("load") *)
| OExpectDownload                   (* waiting for the download event *)
| ODownloadSave (path : string)     (* download.save_as(path) *)
| ODownloadPath                     (* download.path() *)
| OClose.                           (* page.close *)

Record state : Type := mkState {
  s_next : nat;                (* id of the next page the context opens *)
  s_log : list (nat * op);     (* page calls, newest first *)
  s_files : list string;       (* paths of the files written, newest first *)
  s_page : nat;                (* the local variable [page] of [run] *)
  s_sr : dict;                 (* [step_result] fields after step/action/raw *)
  s_downloads : list string    (* [results["downloads"]] *)
}.

Definition set_next n s := mkState n (s_log s) (s_files s) (s_page s) (s_sr s) (s_downloads s).
Definition set_log l s := mkState (s_next s) l (s_files s) (s_page s) (s_sr s) (s_downloads s).
Definition set_files f s := mkState (s_next s) (s_log s) f (s_page s) (s_sr s) (s_downloads s).
Definition set_page p s := mkState (s_next s) (s_log s) (s_files s) p (s_sr s) (s_downloads s).
Definition set_sr d s := mkState (s_next s) (s_log s) (s_files s) (s_page s) d (s_downloads s).
Definition set_downloads l s := mkState (s_next s) (s_log s) (s_files s) (s_page s) (s_sr s) l.

(** The runner's configuration and the oracles of the outside world. *)
Record env : Type := mkEnv {
  e_cwd : string;                                 (* process working directory *)
  e_download_dir : string;                        (* [self.download_dir] (absolute) *)
  e_call : state -> nat -> op -> option exn;      (* a page call raises, or not *)
  e_elements : state -> nat -> exn + list nat;    (* query_selector_all *)
  e_inner_text : state -> nat -> nat -> exn + string;
  e_new_page : state -> bool;                     (* a page opened during expect_page *)
  e_download : state -> nat -> exn + string;      (* download event: suggested_filename *)
  e_http : state -> val -> option exn;            (* requests.get + raise_for_status *)
  e_open : state -> string -> option exn;         (* open(dest, "wb") *)
  e_stream : state -> val -> option exn;          (* writing the response chunks *)
  e_parse_float : string -> option (bool * string); (* float(s): negative?, repr *)
  e_launch : state -> option exn                  (* starting the browser *)
}.

(** ** A state and exception monad *)

Definition M (A : Type) : Type := state -> state * (exn + A).

Definition ret {A} (a : A) : M A := fun s => (s, inr a).
Definition bind {A B} (m : M A) (k : A -> M B) : M B :=
  fun s => match m s with
           | (s', inl e) => (s', inl e)
           | (s', inr a) => k a s'
           end.
Definition throw {A} (e : exn) : M A := fun s => (s, inl e).
(** [try: m except: h] *)
Definition try_catch {A} (m : M A) (h : exn -> M A) : M A :=
  fun s => match m s with
           | (s', inl e) => h e s'
           | r => r
           end.
Definition modify (f : state -> state) : M unit := fun s => (f s, inr tt).
Definition gets {A} (f : state -> A) : M A := fun s => (s, inr (f s)).

Notation "'let*' x ':=' m 'in' k" := (bind m (fun x => k))
  (at level 200, x name, right associativity).
Notation "m ;; k" := (bind m (fun _ => k)) (at level 100, right associativity).

Definition raise_opt (o : option exn) : M unit :=
  match o with Some e => throw e | None => ret tt end.

Definition set_field (k : string) (v : val) : M unit :=
  modify (fun s => set_sr (dset k v (s_sr s)) s).

Definition continue_on_error (st : dict) : bool :=
  truthy (dget_or st "continue_on_error" (VBool false)).

(** ** The runner *)

Section Runner.

Variable E : env.

(** A call on page [p]: it is logged, then the oracle answers. *)
Definition log_call (p : nat) (o : op) : M unit :=
  modify (fun s => set_log ((p, o) :: s_log s) s).

Definition call (p : nat) (o : op) : M unit :=
  log_call p o ;; (fun s => raise_opt (e_call E s p o) s).

Definition query_all (p : nat) : M (list nat) :=
  log_call p OQueryAll ;; (fun s => (s, e_elements E s p)).

Definition inner_text (p el : nat) : M string :=
  log_call p (OInnerText el) ;; (fun s => (s, e_inner_text E s p el)).

(** A file is created at [path], relative paths resolved against the
    working directory. *)
Definition write_file (path : string) : M unit :=
  modify (fun s => set_files (path_join (e_cwd E) path :: s_files s) s).

(** [os.path.join(a, b)] with [b] any value. *)
Definition py_join (a : string) (b : val) : M string :=
  match b with
  | VStr s => ret (path_join a s)
  | _ => throw (EOther ("expected str, bytes or os.PathLike object, not "
                        ++ type_name b))
  end.

(** [float(v)]: whether it is negative, and its repr. *)
Definition py_float (v : val) : M (bool * string) :=
  match v with
  | VNum z => ret (Z.ltb z 0, z_to_string z ++ ".0")
  | VBool b => ret (false, if b then "1.0" else "0.0")
  | VNull => throw (EOther "float() argument must be a string or a real number, not 'NoneType'")
  | VStr s =>
      match e_parse_float E s with
      | Some r => ret r
      | None => throw (EOther ("could not convert string to float: '" ++ s ++ "'"))
      end
  end.

(** [time.sleep(secs)] *)
Definition sleep (neg : bool) : M unit :=
  if neg then throw (EOther "sleep length must be non-negative") else ret tt.

(** One iteration of the fallback loop of [_safe_click_by_text]: [Some inner]
    when the element was clicked, [None] to go on with the next one. *)
Definition fallback_elem (p : nat) (text : val) (a : nat) : M (option string) :=
  try_catch
    (let* t := inner_text p a in
     let inner := strip t in
     if String.eqb inner "" then ret None
     else match text with
          | VStr tx =>
              if contains (lower tx) (lower inner)
              then call p (OElemClick a) ;; ret (Some inner)
              else ret None
          | _ => throw (EOther ("'" ++ type_name text ++ "' object has no attribute 'lower'"))
          end)
    (fun _ => ret None).

Fixpoint fallback_loop (p : nat) (text : val) (els : list nat) : M (option string) :=
  match els with
  | [] => ret None
  | a :: rest =>
      let* r := fallback_elem p text a in
      match r with
      | Some inner => ret (Some inner)
      | None => fallback_loop p text rest
      end
  end.

(** [_safe_click_by_text(page, text)] *)
Definition safe_click_by_text (p : nat) (text : val) : M (bool * string) :=
  try_catch
    (call p (OClickByText text) ;;
     ret (true, "Clicked by text='" ++ py_str text ++ "'"))
    (fun _ =>
       let* r := try_catch (let* els := query_all p in fallback_loop p text els)
                           (fun _ => ret None) in
       match r with
       | Some inner => ret (true, "Clicked fallback element with text='" ++ inner ++ "'")
       | None => ret (false, "Element with text '" ++ py_str text ++ "' not found")
       end).

(** [with self._context.expect_page() as info: m] then [info.value]: the id
    of the new page, a fresh one. *)
Definition expect_page {A} (m : M A) : M nat :=
  m ;;
  (fun s => if e_new_page E s
            then (set_next (S (s_next s)) s, inr (s_next s))
            else (s, inl (ETimeout "Timeout exceeded while waiting for event 'page'"))).

(** [with page.expect_download() as info: m] then [info.value]: the
    download's suggested filename. *)
Definition expect_download {A} (p : nat) (m : M A) : M string :=
  m ;; log_call p OExpectDownload ;; (fun s => (s, e_download E s p)).

(** [download.save_as(path)] for a download of page [p]. *)
Definition download_save (p : nat) (path : string) : M unit :=
  call p (ODownloadSave path) ;; write_file path.

(** Outcome of [_download_via_requests]. *)
Inductive fetch_result : Type :=
| FetchOk (file : string)
| FetchErr (error : string).

Definition fetch_dict (r : fetch_result) : dict :=
  match r with
  | FetchOk d => [("ok", VBool true); ("file", VStr d)]
  | FetchErr m => [("ok", VBool false); ("error", VStr m)]
  end.

(** [_download_via_requests(url, save_as)]: never raises. *)
Definition download_via_requests (url save_as : val) : M fetch_result :=
  try_catch
    ((fun s => raise_opt (e_http E s url) s) ;;
     let* filename :=
       (if truthy save_as then ret save_as
        else match url with
             | VStr u =>
                 let seg := last_segment u in
                 ret (if String.eqb seg "" then VStr "download.bin" else VStr seg)
             | _ => throw (EOther ("'" ++ type_name url ++ "' object has no attribute 'split'"))
             end) in
     let* dest := py_join (e_download_dir E) filename in
     (fun s => raise_opt (e_open E s dest) s) ;;
     write_file dest ;;
     (fun s => raise_opt (e_stream E s url) s) ;;
     ret (FetchOk dest))
    (fun e => ret (FetchErr (exn_msg e))).

(** [step[k]] *)
Definition dindex (d : dict) (k : string) : M val :=
  match lookup d k with
  | Some v => ret v
  | None => throw (EOther ("'" ++ k ++ "'"))
  end.

Definition ok_status : M unit := set_field "status" (VStr "ok").
Definition info (m : string) : M unit := set_field "info" (VStr m).

Definition append_download (d : string) : M unit :=
  modify (fun s => set_downloads ((s_downloads s ++ [d])%list) s).

(** The triggering click of a browser-triggered download. *)
Definition download_trigger (page : nat) (selector text : val) : M string :=
  if truthy selector then
    expect_download page (call page (OClick selector))
  else if truthy text then
    expect_download page
      (let* r := safe_click_by_text page text in
       if fst r then ret tt else throw (EOther (snd r)))
  else throw (EOther "No selector or text provided").

(** The body of the inner [try] of [run] for one step, after [action] has
    been computed. *)
Definition body (a : string) (st : dict) : M unit :=
  let* page := gets s_page in
  let selector := dget st "selector" in
  let text := dget st "text" in
  if String.eqb a "goto" then
    let* url := dindex st "url" in
    call page (OGoto url) ;;
    ok_status ;; info ("Navigated to " ++ py_str url)
  else if String.eqb a "wait" then
    let* r := py_float (dget_or st "seconds" (VNum 1)) in
    sleep (fst r) ;;
    ok_status ;; info ("Waited " ++ snd r ++ "s")
  else if String.eqb a "wait_for_selector" then
    let* sel := dindex st "selector" in
    call page (OWaitForSelector sel) ;;
    ok_status ;; info ("Selector ready: " ++ py_str sel)
  else if String.eqb a "fill" then
    let* sel := dindex st "selector" in
    let value := dget_or st "value" (VStr "") in
    call page (OFill sel value) ;;
    ok_status ;; info ("Filled " ++ py_str sel)
  else if String.eqb a "click" || String.eqb a "click_text" then
    if truthy selector then
      call page (OClick selector) ;;
      ok_status ;; info ("Clicked selector: " ++ py_str selector)
    else if truthy text then
      let* r := safe_click_by_text page text in
      set_field "status" (VStr (if fst r then "ok" else "error")) ;;
      info (snd r) ;;
      (if negb (fst r) && negb (continue_on_error st)
       then throw (EOther (snd r)) else ret tt)
    else throw (EOther "click requires selector or text")
  else if String.eqb a "click_new_page" then
    if truthy selector then
      let* np := expect_page (call page (OClick selector)) in
      call np OWaitLoad ;;
      modify (set_page np) ;;
      ok_status ;; info "Opened new page via selector"
    else if truthy text then
      let* np := expect_page (safe_click_by_text page text) in
      call np OWaitLoad ;;
      modify (set_page np) ;;
      ok_status ;; info "Opened new page via text"
    else throw (EOther "click_new_page needs selector or text")
  else if String.eqb a "download" then
    if has_key st "url" then
      let* url := dindex st "url" in
      let* r := download_via_requests url (dget st "save_as") in
      modify (fun s => set_sr (dupdate (s_sr s) (fetch_dict r)) s) ;;
      match r with
      | FetchOk d => append_download d
      | FetchErr _ => ret tt
      end
    else if truthy selector || truthy text then
      try_catch
        (let* sugg := download_trigger page selector text in
         download_save page "bos_history.xls" ;;
         call page ODownloadPath ;;
         let suggested :=
           if negb (String.eqb sugg "") then VStr sugg
           else if truthy (dget st "save_as") then dget st "save_as"
           else VStr "download.bin" in
         let save_as := dget_or st "save_as" suggested in
         let* dest := py_join (e_download_dir E) save_as in
         download_save page dest ;;
         ok_status ;;
         set_field "file" (VStr dest) ;;
         append_download dest)
        (fun e =>
           match e with
           | ETimeout m =>
               set_field "status" (VStr "error") ;;
               set_field "error" (VStr ("download timeout: " ++ m)) ;;
               (if continue_on_error st then ret tt else throw e)
           | EOther _ => throw e
           end)
    else throw (EOther "download needs selector/text/url")
  else
    set_field "status" (VStr "error") ;;
    set_field "error" (VStr ("Unknown action: " ++ a)) ;;
    (if continue_on_error st then ret tt
     else throw (EOther ("Unknown action: " ++ a))).

(** A [step_result] dict: keys step, action, raw, then [sr_fields]. *)
Record step_result : Type := mkSR {
  sr_step : nat;
  sr_action : string;
  sr_raw : dict;
  sr_fields : dict
}.

(** One step: the inner [try] and its [except Exception] handler. The
    [option exn] is the exception re-raised out of the loop, if any. *)
Definition exec_step (idx : nat) (a : string) (st : dict) (s : state)
  : state * step_result * option exn :=
  match body a st (set_sr [] s) with
  | (s1, inr _) => (s1, mkSR idx a st (s_sr s1), None)
  | (s1, inl e) =>
      let f := dset "error" (VStr (exn_msg e))
                 (dset "status" (VStr "error") (s_sr s1)) in
      (set_sr f s1, mkSR idx a st f,
       if continue_on_error st then None else Some e)
  end.

(** [(step.get("action") or "").lower()] *)
Definition action_of (st : dict) : exn + string :=
  let v := dget st "action" in
  if truthy v then
    match v with
    | VStr a => inr (lower a)
    | _ => inl (EOther ("'" ++ type_name v ++ "' object has no attribute 'lower'"))
    end
  else inr "".

(** The [for] loop of [run]: final state, [results["steps"]], and the
    exception that leaves the loop, if any. *)
Fixpoint loop (steps : list dict) (idx : nat) (s : state) (acc : list step_result)
  : state * list step_result * option exn :=
  match steps with
  | [] => (s, acc, None)
  | st :: rest =>
      match action_of st with
      | inl e => (s, acc, Some e)
      | inr a =>
          match exec_step idx a st s with
          | (s1, sr, None) => loop rest (S idx) s1 ((acc ++ [sr])%list)
          | (s1, sr, Some e) => (s1, (acc ++ [sr])%list, Some e)
          end
      end
  end.

Record feed_guide : Type := mkGuide { fg_name : val; fg_steps : list dict }.

Record run_result : Type := mkRun {
  rr_feed_name : val;
  rr_steps : list step_result;
  rr_downloads : list string
}.

(** How [run] ends, with the [results] dict it built: [Returned] when it
    ends normally, [Raised] when an exception leaves it. The method has no
    [return] statement, so in the first case its caller receives None;
    [results] is kept here to state what the run recorded. *)
Inductive outcome : Type :=
| Returned (r : run_result)
| Raised (e : exn) (partial : run_result).

(** [FeedGuideRunner.run(feed_guide)] from state [s]. *)
Definition run (g : feed_guide) (s : state) : state * outcome :=
  match e_launch E s with
  | Some e => (s, Raised e (mkRun (fg_name g) [] []))
  | None =>
      let page := s_next s in
      let s0 := set_downloads [] (set_sr [] (set_page page (set_next (S page) s))) in
      match loop (fg_steps g) 1 s0 [] with
      | (s1, acc, r) =>
          let s2 := fst (try_catch (call (s_page s1) OClose) (fun _ => ret tt) s1) in
          let res := mkRun (fg_name g) acc (s_downloads s2) in
          (s2, match r with None => Returned res | Some e => Raised e res end)
      end
  end.

End Runner.

(** * Reasoning about the monad *)

(** Weakest precondition of [m] at [s]: [Q] for a normal return, [X] for a
    raised exception. *)
Definition wp {A} (m : M A) (Q : A -> state -> Prop) (X : exn -> state -> Prop)
  (s : state) : Prop :=
  match m s with
  | (s', inr a) => Q a s'
  | (s', inl e) => X e s'
  end.

Lemma wp_ret {A} (a : A) Q X s : Q a s -> wp (ret a) Q X s.
Proof. exact (fun H => H). Qed.

Lemma wp_throw {A} e (Q : A -> state -> Prop) X s : X e s -> wp (throw e) Q X s.
Proof. exact (fun H => H). Qed.

Lemma wp_bind {A B} (m : M A) (k : A -> M B) Q X s :
  wp m (fun a s' => wp (k a) Q X s') X s -> wp (bind m k) Q X s.
Proof. unfold wp, bind. destruct (m s) as [s' [e|a]]; auto. Qed.

Lemma wp_try {A} (m : M A) h Q X s :
  wp m Q (fun e s' => wp (h e) Q X s') s -> wp (try_catch m h) Q X s.
Proof. unfold wp, try_catch. destruct (m s) as [s' [e|a]]; auto. Qed.

Lemma wp_modify f Q X s : Q tt (f s) -> wp (modify f) Q X s.
Proof. exact (fun H => H). Qed.

Lemma wp_gets {A} (f : state -> A) Q X s : Q (f s) s -> wp (gets f) Q X s.
Proof. exact (fun H => H). Qed.

Lemma wp_mono {A} (m : M A) (Q Q' : A -> state -> Prop) (X X' : exn -> state -> Prop) s :
  wp m Q X s -> (forall a s', Q a s' -> Q' a s') -> (forall e s', X e s' -> X' e s') ->
  wp m Q' X' s.
Proof. unfold wp. destruct (m s) as [s' [e|a]]; auto. Qed.

Lemma wp_raise_opt o Q X s :
  (o = None -> Q tt s) -> (forall e, o = Some e -> X e s) -> wp (raise_opt o) Q X s.
Proof. destruct o; intros H1 H2; [apply H2|apply H1]; reflexivity. Qed.

(** What a helper may do to the state: calls on page [p] only, files
    satisfying [F] only, nothing else. *)
Record frame (p : nat) (F : string -> Prop) (s s' : state) : Prop := {
  fr_next : s_next s' = s_next s;
  fr_page : s_page s' = s_page s;
  fr_sr : s_sr s' = s_sr s;
  fr_downloads : s_downloads s' = s_downloads s;
  fr_log : exists added, s_log s' = (added ++ s_log s)%list /\
                         Forall (fun e => fst e = p) added;
  fr_files : exists added, s_files s' = (added ++ s_files s)%list /\ Forall F added
}.

Lemma frame_refl p F s : frame p F s s.
Proof. constructor; auto; exists []; auto. Qed.

Lemma frame_trans p F s1 s2 s3 : frame p F s1 s2 -> frame p F s2 s3 -> frame p F s1 s3.
Proof.
  intros [n1 p1 r1 d1 [l1 [Hl1 Fl1]] [f1 [Hf1 Ff1]]] [n2 p2 r2 d2 [l2 [Hl2 Fl2]] [f2 [Hf2 Ff2]]].
  constructor; try congruence.
  - exists (l2 ++ l1)%list. rewrite Hl2, Hl1, app_assoc. split; auto.
    apply Forall_app; auto.
  - exists (f2 ++ f1)%list. rewrite Hf2, Hf1, app_assoc. split; auto.
    apply Forall_app; auto.
Qed.

(** [m] stays within [frame p F] from any start, on both outcomes. *)
Definition framed {A} (p : nat) (F : string -> Prop) (m : M A) : Prop :=
  forall s, wp m (fun _ s' => frame p F s s') (fun _ s' => frame p F s s') s.

(** Using a framed helper at the head of a computation. *)
Lemma wp_framed {A} (m : M A) p F Q X s :
  framed p F m ->
  (forall a s', frame p F s s' -> Q a s') -> (forall e s', frame p F s s' -> X e s') ->
  wp m Q X s.
Proof. intros H HQ HX. eapply wp_mono; [apply H| |]; eauto. Qed.

Lemma framed_ret {A} p F (a : A) : framed p F (ret a).
Proof. intros s. apply wp_ret, frame_refl. Qed.

Lemma framed_throw {A} p F e : framed (A:=A) p F (throw e).
Proof. intros s. apply wp_throw, frame_refl. Qed.

Lemma framed_bind {A B} p F (m : M A) (k : A -> M B) :
  framed p F m -> (forall a, framed p F (k a)) -> framed p F (bind m k).
Proof.
  intros Hm Hk s. apply wp_bind. eapply wp_framed; [exact Hm| |]; intros.
  - eapply wp_mono; [apply Hk| |]; intros; eapply frame_trans; eauto.
  - assumption.
Qed.

Lemma framed_try {A} p F (m : M A) h :
  framed p F m -> (forall e, framed p F (h e)) -> framed p F (try_catch m h).
Proof.
  intros Hm Hh s. apply wp_try. eapply wp_framed; [exact Hm| |]; intros.
  - assumption.
  - eapply wp_mono; [apply Hh| |]; intros; eapply frame_trans; eauto.
Qed.

Lemma framed_gets {A} p F (f : state -> A) : framed p F (gets f).
Proof. intros s. apply wp_gets, frame_refl. Qed.

Lemma framed_raise_opt p F o : framed p F (raise_opt o).
Proof. intros s. destruct o; apply frame_refl. Qed.

Lemma framed_log_call p F o : framed p F (log_call p o).
Proof.
  intros s. apply wp_modify. unfold set_log; constructor; simpl; auto.
  - exists [(p, o)]. split; auto.
  - exists []. auto.
Qed.

Lemma framed_bind_ret {A B} p F (a : A) (k : A -> M B) :
  framed p F (k a) -> framed p F (bind (ret a) k).
Proof. exact (fun H => H). Qed.

Lemma framed_read {A} p F (f : state -> exn + A) : framed p F (fun s => (s, f s)).
Proof. intros s. unfold wp. destruct (f s); apply frame_refl. Qed.

Lemma framed_raise_read p F (f : state -> option exn) :
  framed p F (fun s => raise_opt (f s) s).
Proof. intros s. unfold wp. destruct (f s); apply frame_refl. Qed.

Lemma framed_bind_throw {A B} p F e (k : A -> M B) : framed p F (bind (throw e) k).
Proof. intros s. apply frame_refl. Qed.

Create HintDb framed.
#[export] Hint Resolve framed_ret framed_throw framed_gets framed_raise_opt
  framed_log_call framed_read framed_raise_read : framed.

Ltac framed_tac :=
  repeat match goal with
  | |- framed _ _ (bind (ret _) _) => apply framed_bind_ret
  | |- framed _ _ (bind (throw _) _) => apply framed_bind_throw
  | |- framed _ _ (bind _ _) => apply framed_bind; [ | intro ]
  | |- framed _ _ (try_catch _ _) => apply framed_try; [ | intro ]
  | |- framed _ _ (if ?b then _ else _) => destruct b
  | |- framed _ _ (match ?x with _ => _ end) => destruct x
  | |- _ => solve [eauto with framed]
  end.

Lemma framed_call E p F o : framed p F (call E p o).
Proof. unfold call. framed_tac. Qed.

Lemma framed_query_all E p F : framed p F (query_all E p).
Proof. unfold query_all. framed_tac. Qed.

Lemma framed_inner_text E p F el : framed p F (inner_text E p el).
Proof. unfold inner_text. framed_tac. Qed.

Lemma framed_dindex p F d k : framed p F (dindex d k).
Proof. unfold dindex. framed_tac. Qed.

Lemma framed_py_join p F a b : framed p F (py_join a b).
Proof. unfold py_join. framed_tac. Qed.

Lemma framed_py_float E p F v : framed p F (py_float E v).
Proof. unfold py_float. framed_tac. Qed.

Lemma framed_sleep p F b : framed p F (sleep b).
Proof. unfold sleep. framed_tac. Qed.

Lemma framed_write_file E p F path :
  F (path_join (e_cwd E) path) -> framed p F (write_file E path).
Proof.
  intros HF s. apply wp_modify. unfold set_files; constructor; simpl; auto.
  - exists []. auto.
  - exists [path_join (e_cwd E) path]. auto.
Qed.

#[export] Hint Resolve framed_call framed_query_all framed_inner_text framed_dindex
  framed_py_join framed_py_float framed_sleep : framed.

Lemma framed_fallback_elem E p F text a : framed p F (fallback_elem E p text a).
Proof. unfold fallback_elem. framed_tac. Qed.
#[export] Hint Resolve framed_fallback_elem : framed.

Lemma framed_fallback_loop E p F text els : framed p F (fallback_loop E p text els).
Proof. induction els as [|a rest IH]; simpl; framed_tac. Qed.
#[export] Hint Resolve framed_fallback_loop : framed.

Lemma framed_safe_click E p F text : framed p F (safe_click_by_text E p text).
Proof. unfold safe_click_by_text. framed_tac. Qed.
#[export] Hint Resolve framed_safe_click : framed.

Lemma framed_expect_download {A} E p F (m : M A) :
  framed p F m -> framed p F (expect_download E p m).
Proof. intros Hm. unfold expect_download. framed_tac. Qed.

Lemma framed_download_save E p F path :
  F (path_join (e_cwd E) path) -> framed p F (download_save E p path).
Proof. intros HF. unfold download_save. framed_tac. apply framed_write_file; auto. Qed.

Lemma framed_download_trigger E p F sel text :
  framed p F (download_trigger E p sel text).
Proof.
  unfold download_trigger. framed_tac; apply framed_expect_download; framed_tac.
Qed.
#[export] Hint Resolve framed_download_trigger : framed.

(** The file name [_download_via_requests] derives:
    [save_as or url.split("/")[-1] or "download.bin"]. *)
Definition fetch_name (url save_as : val) (name : string) : Prop :=
  (truthy save_as = true /\ save_as = VStr name) \/
  (truthy save_as = false /\ exists u, url = VStr u /\
     name = (if String.eqb (last_segment u) "" then "download.bin" else last_segment u)).

Lemma framed_download_via_requests E p F url sa :
  (forall name, fetch_name url sa name ->
     F (path_join (e_cwd E) (path_join (e_download_dir E) name))) ->
  framed p F (download_via_requests E url sa).
Proof.
  intros HF. unfold download_via_requests.
  destruct (truthy sa) eqn:Hsa.
  - apply framed_try; [|intros; framed_tac].
    apply framed_bind; [framed_tac|intros []].
    apply framed_bind_ret. cbv beta.
    destruct sa as [| | |n]; unfold py_join; cbv beta iota; framed_tac.
    apply framed_write_file. apply HF. left. auto.
  - apply framed_try; [|intros; framed_tac].
    apply framed_bind; [framed_tac|intros []].
    destruct url as [| | |u]; [framed_tac..|].
    apply framed_bind_ret. cbv beta.
    destruct (String.eqb (last_segment u) "") eqn:Hseg;
      unfold py_join; cbv beta iota; framed_tac;
      apply framed_write_file; apply HF; right; split; auto; exists u; rewrite Hseg; auto.
Qed.

Lemma wp_set_field k v Q X s : Q tt (set_sr (dset k v (s_sr s)) s) -> wp (set_field k v) Q X s.
Proof. exact (fun H => H). Qed.

Lemma wp_append_download d Q X s :
  Q tt (set_downloads ((s_downloads s ++ [d])%list) s) -> wp (append_download d) Q X s.
Proof. exact (fun H => H). Qed.

Lemma wp_py_join a b Q X s :
  (forall n, b = VStr n -> Q (path_join a n) s) -> (forall e, X e s) ->
  wp (py_join a b) Q X s.
Proof. intros HQ HX. destruct b; unfold wp; simpl; auto. Qed.

Lemma wp_dindex d k Q X s :
  (forall v, lookup d k = Some v -> Q v s) -> (forall e, X e s) ->
  wp (dindex d k) Q X s.
Proof. intros HQ HX. unfold dindex, wp. destruct (lookup d k); simpl; auto. Qed.

(** Walking a computation: structural steps, then framed helpers. *)
Ltac wp_tac :=
  repeat match goal with
  | |- wp (bind (ret _) _) _ _ _ => apply wp_bind, wp_ret; cbv beta
  | |- wp (bind _ _) _ _ _ => apply wp_bind
  | |- wp (try_catch _ _) _ _ _ => apply wp_try
  | |- wp (ret _) _ _ _ => apply wp_ret
  | |- wp (throw _) _ _ _ => apply wp_throw
  | |- wp (modify _) _ _ _ => apply wp_modify
  | |- wp (gets _) _ _ _ => apply wp_gets
  | |- wp (set_field _ _) _ _ _ => apply wp_set_field
  | |- wp ok_status _ _ _ => apply wp_set_field
  | |- wp (info _) _ _ _ => apply wp_set_field
  | |- wp (append_download _) _ _ _ => apply wp_append_download
  | |- wp (py_join _ _) _ _ _ => apply wp_py_join; [intros ?n ?Hn | intros ?e]
  | |- wp (dindex _ _) _ _ _ => apply wp_dindex; [intros ?v ?Hv | intros ?e]
  | |- wp (if ?b then _ else _) _ _ _ => destruct b eqn:?
  | |- wp (match ?x with _ => _ end) _ _ _ => destruct x eqn:?
  end.

Lemma wp_expect_page {A} E (m : M A) p F Q X s :
  framed p F m ->
  (forall s1, frame p F s s1 -> e_new_page E s1 = true ->
              Q (s_next s1) (set_next (S (s_next s1)) s1)) ->
  (forall e s1, frame p F s s1 -> X e s1) ->
  wp (expect_page E m) Q X s.
Proof.
  intros Hm HQ HX. unfold expect_page. apply wp_bind.
  eapply wp_framed; [exact Hm| |]; intros a s1 Hf; auto.
  unfold wp. destruct (e_new_page E s1) eqn:Hn; auto.
Qed.

Lemma wp_download_trigger E p sel text F Q X s :
  (forall sugg s1, frame p F s s1 ->
     (exists s2, e_download E s2 p = inr sugg /\ hd_error (s_log s2) = Some (p, OExpectDownload)) ->
     Q sugg s1) ->
  (forall e s1, frame p F s s1 -> X e s1) ->
  wp (download_trigger E p sel text) Q X s.
Proof.
  intros HQ HX.
  assert (Hexp : forall (A : Type) (m : M A), framed p F m ->
            wp (expect_download E p m) Q X s).
  { intros A m Hm. unfold expect_download. apply wp_bind.
    eapply wp_framed; [exact Hm| |]; intros a s1 Hf; auto.
    apply wp_bind, wp_modify. unfold wp. simpl.
    set (s2 := set_log ((p, OExpectDownload) :: s_log s1) s1).
    assert (Hf2 : frame p F s s2).
    { eapply frame_trans; [exact Hf|]. apply (framed_log_call p F OExpectDownload s1). }
    destruct (e_download E s2 p) as [e|sugg] eqn:Hd; auto.
    apply HQ; auto. exists s2. split; auto. }
  unfold download_trigger.
  destruct (truthy sel); [apply Hexp; framed_tac|].
  destruct (truthy text); [apply Hexp; framed_tac|].
  apply wp_throw. apply HX, frame_refl.
Qed.

Lemma wp_download_via_requests E p F url sa Q X s :
  (forall name, fetch_name url sa name ->
     F (path_join (e_cwd E) (path_join (e_download_dir E) name))) ->
  (forall r s1, frame p F s s1 ->
     (forall dest, r = FetchOk dest ->
        exists name, fetch_name url sa name /\ dest = path_join (e_download_dir E) name) ->
     Q r s1) ->
  wp (download_via_requests E url sa) Q X s.
Proof.
  intros HF HQ. unfold download_via_requests. apply wp_try.
  apply wp_bind. apply (wp_framed _ p F); [apply framed_raise_read| |]; intros a s1 Hf1;
    [|apply wp_ret; apply HQ; [auto|discriminate]].
  assert (Hk : forall name, fetch_name url sa name ->
    wp (let* dest := py_join (e_download_dir E) (VStr name) in
        (fun s0 => raise_opt (e_open E s0 dest) s0) ;;
        write_file E dest ;;
        (fun s0 => raise_opt (e_stream E s0 url) s0) ;;
        ret (FetchOk dest))
      Q (fun e s' => wp (ret (FetchErr (exn_msg e))) Q X s') s1).
  { intros name Hn. unfold py_join. apply wp_bind, wp_ret. cbv beta.
    set (dest := path_join (e_download_dir E) name).
    match goal with |- wp ?m _ _ _ => set (mm := m) end.
    assert (Hfr : framed p F mm).
    { unfold mm. framed_tac. apply framed_write_file, HF, Hn. }
    specialize (Hfr s1). unfold wp in Hfr |- *.
    destruct (mm s1) as [s2 [e|r]] eqn:Hr.
    - apply HQ; [eapply frame_trans; eauto|discriminate].
    - assert (r = FetchOk dest).
      { clear Hfr. revert Hr. unfold mm, bind, raise_opt, write_file, modify, ret.
        destruct (e_open E s1 dest); [discriminate|].
        destruct (e_stream E _ url); [discriminate|]. congruence. }
      subst r. apply HQ; [eapply frame_trans; eauto|].
      intros d Hd. injection Hd as <-. exists name. auto. }
  destruct (truthy sa) eqn:Hsa.
  - apply wp_bind, wp_ret. cbv beta.
    destruct sa as [| | |n]; try discriminate;
      [apply wp_bind, wp_throw, wp_ret; apply HQ; [auto|discriminate]..|].
    apply Hk. left. auto.
  - destruct url as [| | |u];
      [apply wp_bind, wp_throw, wp_ret; apply HQ; [auto|discriminate]..|].
    apply wp_bind, wp_ret. cbv beta.
    destruct (String.eqb (last_segment u) "") eqn:Hseg; apply Hk; right;
      split; auto; exists u; rewrite Hseg; auto.
Qed.

(** A helper at the head of the computation, with file predicate [F]. *)
Ltac wp_helper F :=
  match goal with
  | |- wp (expect_page _ _) _ _ _ =>
      eapply (wp_expect_page _ _ _ F);
      [solve [eauto with framed] | intros ?s ?Hfr ?Hnp | intros ?e ?s ?Hfr]
  | |- wp (download_trigger _ _ _ _) _ _ _ =>
      eapply (wp_download_trigger _ _ _ _ F);
      [intros ?sugg ?s ?Hfr ?Hsugg | intros ?e ?s ?Hfr]
  | |- wp (download_via_requests _ _ _) _ _ _ =>
      eapply (wp_download_via_requests _ _ F); [ | intros ?r ?s ?Hfr ?Hr]
  | |- wp (download_save _ ?p _) _ _ _ =>
      eapply (wp_framed _ p F);
      [apply framed_download_save | intros ?a ?s ?Hfr | intros ?e ?s ?Hfr]
  | |- wp _ _ _ _ =>
      eapply (wp_framed _ _ F);
      [solve [eauto with framed] | intros ?a ?s ?Hfr | intros ?e ?s ?Hfr]
  end.

Ltac wp_walk F := repeat (wp_tac; try wp_helper F).

(** Same, preferring page [P] for helpers that make no page call. *)
Ltac wp_walk_on P F :=
  repeat (wp_tac;
          try (eapply (wp_framed _ P F);
               [solve [eauto with framed] | intros ?a ?s ?Hfr | intros ?e ?s ?Hfr]);
          try (match goal with
               | |- wp (download_via_requests _ _ _) _ _ _ =>
                   eapply (wp_download_via_requests _ P F); [ | intros ?r ?s ?Hfr ?Hr]
               end);
          try wp_helper F).

Ltac frames_to_eqs :=
  repeat match goal with
  | H : frame _ _ _ _ |- _ =>
      let Hn := fresh "Hn" in let Hp := fresh "Hp" in let Hs := fresh "Hsr" in
      let Hd := fresh "Hd" in let Hl := fresh "Hl" in let Hf := fresh "Hf" in
      destruct H as [Hn Hp Hs Hd Hl Hf]
  end.

Lemma lookup_dset k v d k' :
  lookup (dset k v d) k' = if String.eqb k' k then Some v else lookup d k'.
Proof.
  induction d as [|[k0 v0] d IH]; simpl.
  - reflexivity.
  - destruct (String.eqb k k0) eqn:H; simpl.
    + apply String.eqb_eq in H. subst k0. simpl. destruct (String.eqb k' k); reflexivity.
    + rewrite IH. destruct (String.eqb k' k) eqn:H1; auto.
      apply String.eqb_eq in H1. subst k'. rewrite H. reflexivity.
Qed.

Ltac sr_chain H :=
  repeat match goal with
  | E : s_sr ?x = _ |- _ => rewrite E in H
  end.

Lemma body_error_status E a st s :
  s_sr s = [] ->
  wp (body E a st)
     (fun _ s1 => lookup (s_sr s1) "status" = Some (VStr "error") ->
                  continue_on_error st = true)
     (fun _ _ => True) s.
Proof.
  intros H0. unfold body. wp_walk (fun _ : string => True).
  all: frames_to_eqs; simpl in *; auto.
  all: try (intros Hst; sr_chain Hst; rewrite ?lookup_dset in Hst; simpl in Hst).
  all: try discriminate.
  all: repeat match goal with H : context [if ?b then _ else _] |- _ => destruct b end.
  all: destruct (continue_on_error st); simpl in *; congruence.
  Unshelve. all: exact 0.
Qed.

(** The calls made from [s] to [s'] are the new head of the log, each
    satisfying [Pe]. *)
Definition log_since (s s' : state) (Pe : nat * op -> Prop) : Prop :=
  exists added, s_log s' = (added ++ s_log s)%list /\ Forall Pe added.

(** How one step body moves the current page: it stays, or becomes a page
    opened during the step; calls go to the current page or to such a new
    page; only [click_new_page] opens pages. *)
Definition pages_ok (a : string) (s s' : state) : Prop :=
  s_next s <= s_next s' /\ s_page s' < s_next s' /\
  (s_page s' = s_page s \/ s_next s <= s_page s') /\
  log_since s s' (fun e => fst e = s_page s \/ s_next s <= fst e) /\
  (String.eqb a "click_new_page" = false ->
     s_next s' = s_next s /\ s_page s' = s_page s /\
     log_since s s' (fun e => fst e = s_page s)).

Ltac log_solve :=
  repeat match goal with
  | H : exists added, s_log _ = _ /\ _ |- _ =>
      let a := fresh "ad" in let Heq := fresh "Hle" in let Hfa := fresh "Hla" in
      destruct H as [a [Heq Hfa]]
  end;
  unfold log_since; simpl;
  repeat match goal with H : s_log ?x = _ |- context [s_log ?x] => rewrite H end;
  first
    [ solve [exists nil; split; [reflexivity | apply Forall_nil]]
    | eexists; split; [rewrite ?app_assoc; reflexivity|];
      repeat (apply Forall_app; split);
      try (eapply Forall_impl; [|eassumption]; simpl; intros; lia) ].

Ltac eq_chain :=
  repeat match goal with
  | H : s_next ?x = _ |- context [s_next ?x] => rewrite H
  | H : s_page ?x = _ |- context [s_page ?x] => rewrite H
  end.

Lemma body_pages E a st s :
  s_page s < s_next s ->
  wp (body E a st) (fun _ s' => pages_ok a s s') (fun _ s' => pages_ok a s s') s.
Proof.
  intros Hwf. unfold body. wp_walk_on (s_page s) (fun _ : string => True).
  all: frames_to_eqs; unfold pages_ok; simpl in *; eq_chain.
  all: repeat split; try lia; auto; try (intros; congruence); try log_solve;
       try (intros; repeat split; auto; log_solve).
  Unshelve. all: exact 0.
Qed.

(** The files written from [s] to [s'] are the new head of [s_files], each
    satisfying [Pf]. *)
Definition files_since (s s' : state) (Pf : string -> Prop) : Prop :=
  exists added, s_files s' = (added ++ s_files s)%list /\ Forall Pf added.

(** Where a step's destination name can come from: its [save_as], the last
    '/'-segment of its [url], the fallback [download.bin], or a suggested
    filename reported by the browser for a download. *)
Definition dest_name (E : env) (st : dict) (name : string) : Prop :=
  dget st "save_as" = VStr name \/
  (exists u, dget st "url" = VStr u /\ name = last_segment u) \/
  name = "download.bin" \/
  (exists s p, e_download E s p = inr name).

(** A file a step may write: the fixed intermediate save of the
    browser-triggered download, or [os.path.join(download_dir, name)]. *)
Definition file_ok (E : env) (st : dict) (f : string) : Prop :=
  f = path_join (e_cwd E) "bos_history.xls" \/
  exists name, dest_name E st name /\
               f = path_join (e_cwd E) (path_join (e_download_dir E) name).

Ltac files_solve :=
  frames_to_eqs;
  repeat match goal with
  | H : exists added, s_files _ = _ /\ _ |- _ =>
      let a := fresh "fa" in let Heq := fresh "Hfe" in let Hfa := fresh "Hfa" in
      destruct H as [a [Heq Hfa]]
  end;
  unfold files_since; simpl in *;
  repeat match goal with H : s_files ?x = _ |- context [s_files ?x] => rewrite H end;
  first
    [ solve [exists nil; split; [reflexivity | apply Forall_nil]]
    | eexists; split; [rewrite ?app_assoc; reflexivity|];
      repeat (apply Forall_app; split); try assumption ].

Lemma dget_lookup d k v : lookup d k = Some v -> dget d k = v.
Proof. unfold dget, dget_or. intros ->. reflexivity. Qed.

Lemma body_files E a st s :
  wp (body E a st) (fun _ s' => files_since s s' (file_ok E st))
     (fun _ s' => files_since s s' (file_ok E st)) s.
Proof.
  unfold body. wp_walk (file_ok E st).
  all: try files_solve.
  - (* the direct fetch's destination *)
    intros name [[_ Hsa]|[_ [u [Hu Hname]]]]; right; exists name; split; auto;
      unfold dest_name.
    + left. exact Hsa.
    + subst v. apply dget_lookup in Hv.
      destruct (String.eqb (last_segment u) "") eqn:Hseg; subst name; eauto.
  - (* the fixed intermediate save *)
    left. reflexivity.
  - (* the browser download's destination *)
    right. exists n. split; auto. unfold dest_name.
    unfold dget_or in Hn. destruct (lookup st "save_as") as [v|] eqn:L.
    + left. subst v. apply dget_lookup in L. exact L.
    + assert (Hnull : dget st "save_as" = VNull) by (unfold dget, dget_or; rewrite L; auto).
      rewrite Hnull in Hn. simpl in Hn.
      destruct (negb (String.eqb sugg "")); injection Hn as <-.
      * destruct Hsugg as [sd [Hd _]]. right; right; right; eauto.
      * right; right; left; reflexivity.
  Unshelve. all: exact 0.
Qed.

(** ** From one step body to the loop *)

Lemma log_since_refl s Pe : log_since s s Pe.
Proof. exists nil. split; [reflexivity | apply Forall_nil]. Qed.

Lemma log_since_trans s1 s2 s3 (Pe : nat * op -> Prop) :
  log_since s1 s2 Pe -> log_since s2 s3 Pe -> log_since s1 s3 Pe.
Proof.
  intros [l1 [H1 F1]] [l2 [H2 F2]]. exists (l2 ++ l1)%list.
  rewrite H2, H1, app_assoc. split; auto. apply Forall_app; auto.
Qed.

Lemma log_since_mono s s' (Pe Pe' : nat * op -> Prop) :
  log_since s s' Pe -> (forall e, Pe e -> Pe' e) -> log_since s s' Pe'.
Proof. intros [l [H F]] Himp. exists l. split; auto. eapply Forall_impl; eauto. Qed.

Lemma files_since_refl s Pf : files_since s s Pf.
Proof. exists nil. split; [reflexivity | apply Forall_nil]. Qed.

Lemma files_since_trans s1 s2 s3 (Pf : string -> Prop) :
  files_since s1 s2 Pf -> files_since s2 s3 Pf -> files_since s1 s3 Pf.
Proof.
  intros [l1 [H1 F1]] [l2 [H2 F2]]. exists (l2 ++ l1)%list.
  rewrite H2, H1, app_assoc. split; auto. apply Forall_app; auto.
Qed.

Lemma files_since_mono s s' (Pf Pf' : string -> Prop) :
  files_since s s' Pf -> (forall f, Pf f -> Pf' f) -> files_since s s' Pf'.
Proof. intros [l [H F]] Himp. exists l. split; auto. eapply Forall_impl; eauto. Qed.

(** [exec_step] runs the body on a fresh [step_result]; what it adds to the
    dict does not touch pages, log or files. *)
Lemma exec_step_body E idx a st s (P : state -> Prop) :
  (forall d s', P (set_sr d s') <-> P s') ->
  wp (body E a st) (fun _ => P) (fun _ => P) (set_sr [] s) ->
  P (fst (fst (exec_step E idx a st s))).
Proof.
  intros HP Hb. unfold exec_step. unfold wp in Hb.
  destruct (body E a st (set_sr [] s)) as [s1 [e|u]]; simpl; auto.
  apply HP. exact Hb.
Qed.

Lemma exec_step_pages E idx a st s :
  s_page s < s_next s -> pages_ok a s (fst (fst (exec_step E idx a st s))).
Proof.
  intros Hwf. apply exec_step_body.
  - intros d s'. unfold pages_ok, log_since. simpl. tauto.
  - apply (body_pages E a st (set_sr [] s)). exact Hwf.
Qed.

Lemma exec_step_files E idx a st s :
  files_since s (fst (fst (exec_step E idx a st s))) (file_ok E st).
Proof.
  apply exec_step_body.
  - intros d s'. unfold files_since. simpl. tauto.
  - apply (body_files E a st (set_sr [] s)).
Qed.

(** The loop from a state whose current page is at least [P]: every call
    goes to a page at least [P]; to [P] itself when no step opens a page. *)
Lemma loop_pages E steps idx s acc P :
  s_page s < s_next s -> P <= s_page s ->
  log_since s (fst (fst (loop E steps idx s acc))) (fun e => P <= fst e) /\
  ((forall st, In st steps -> action_of st <> inr "click_new_page") ->
   s_page s = P ->
   log_since s (fst (fst (loop E steps idx s acc))) (fun e => fst e = P)).
Proof.
  revert idx s acc. induction steps as [|st rest IH]; intros idx s acc Hwf HP.
  - simpl. split; [apply log_since_refl | intros; apply log_since_refl].
  - simpl. destruct (action_of st) as [e|a] eqn:Hact.
    + simpl. split; [apply log_since_refl | intros; apply log_since_refl].
    + pose proof (exec_step_pages E idx a st s Hwf) as Hpg.
      destruct (exec_step E idx a st s) as [[s1 sr] r] eqn:Hex. simpl in Hpg.
      destruct Hpg as [Hn [Hwf1 [Hpage [Hlog Hnot]]]].
      assert (Hfirst : log_since s s1 (fun e => P <= fst e)).
      { eapply log_since_mono; [exact Hlog|]. simpl. intros e0 [H|H]; lia. }
      assert (HP1 : P <= s_page s1) by lia.
      destruct r as [e|].
      * simpl. split; auto. intros Hno HPe.
        assert (Ha : String.eqb a "click_new_page" = false).
        { destruct (String.eqb a "click_new_page") eqn:Hq; auto.
          apply String.eqb_eq in Hq. subst a. exfalso.
          apply (Hno st); [left; auto | auto]. }
        destruct (Hnot Ha) as [_ [_ Hl]]. subst P. exact Hl.
      * destruct (IH (S idx) s1 (acc ++ [sr])%list Hwf1 HP1) as [IH1 IH2].
        split; [eapply log_since_trans; eauto|].
        intros Hno HPe.
        assert (Ha : String.eqb a "click_new_page" = false).
        { destruct (String.eqb a "click_new_page") eqn:Hq; auto.
          apply String.eqb_eq in Hq. subst a. exfalso.
          apply (Hno st); [left; auto | auto]. }
        destruct (Hnot Ha) as [_ [Hps Hl]].
        eapply log_since_trans; [subst P; exact Hl|].
        apply IH2; [intros st' Hin; apply Hno; right; auto | congruence].
Qed.

(** Every file the loop writes is allowed by one of its steps. *)
Lemma loop_files E steps idx s acc :
  files_since s (fst (fst (loop E steps idx s acc)))
    (fun f => exists st, In st steps /\ file_ok E st f).
Proof.
  revert idx s acc. induction steps as [|st rest IH]; intros idx s acc.
  - apply files_since_refl.
  - simpl. destruct (action_of st) as [e|a]; [apply files_since_refl|].
    pose proof (exec_step_files E idx a st s) as Hf.
    destruct (exec_step E idx a st s) as [[s1 sr] [e|]]; simpl in *.
    + eapply files_since_mono; [exact Hf|]. intros f Hok. exists st. auto.
    + eapply files_since_trans.
      * eapply files_since_mono; [exact Hf|]. intros f Hok. exists st. auto.
      * eapply files_since_mono; [apply IH|].
        intros f [st' [Hin Hok]]. exists st'. auto.
Qed.

(** Branches of [body] ruled out by a closed string comparison. *)
Ltac drop_branches :=
  try (match goal with
       | H : _ = true |- _ => vm_compute in H; discriminate H
       | H : _ = false |- _ => vm_compute in H; discriminate H
       end).

Lemma body_click_new_page E st s :
  wp (body E "click_new_page" st) (fun _ s' => s_page s' = s_next s) (fun _ _ => True) s.
Proof.
  unfold body. wp_walk (fun _ : string => True).
  all: drop_branches.
  all: frames_to_eqs; simpl in *; eq_chain; auto; congruence.
  Unshelve. all: exact 0.
Qed.

(** A step result with status ["ok"] comes from a body that ended normally. *)
Lemma exec_step_ok E idx a st s s1 sr r (Q : state -> Prop) :
  wp (body E a st) (fun _ s' => lookup (s_sr s') "status" = Some (VStr "ok") -> Q s')
     (fun _ _ => True) (set_sr [] s) ->
  exec_step E idx a st s = (s1, sr, r) ->
  lookup (sr_fields sr) "status" = Some (VStr "ok") ->
  Q s1 /\ sr = mkSR idx a st (s_sr s1) /\ r = None.
Proof.
  intros Hb Hex Hst. unfold exec_step in Hex. unfold wp in Hb.
  destruct (body E a st (set_sr [] s)) as [s2 [e|u]].
  - injection Hex as <- <- <-. simpl in Hst.
    rewrite !lookup_dset in Hst. simpl in Hst. discriminate.
  - injection Hex as <- <- <-. simpl in Hst. auto.
Qed.

(** A step result with status ["error"] and no [continue_on_error] comes
    with an exception re-raised out of the loop. *)
Lemma exec_step_error E idx a st s s1 sr r :
  exec_step E idx a st s = (s1, sr, r) ->
  lookup (sr_fields sr) "status" = Some (VStr "error") ->
  continue_on_error st = false ->
  exists e, r = Some e.
Proof.
  intros Hex Hst Hc. pose proof (body_error_status E a st (set_sr [] s) eq_refl) as Hb.
  unfold exec_step in Hex. unfold wp in Hb.
  destruct (body E a st (set_sr [] s)) as [s2 [e|u]].
  - injection Hex as <- <- <-. rewrite Hc. eauto.
  - injection Hex as <- <- <-. simpl in Hst. rewrite (Hb Hst) in Hc. discriminate.
Qed.

(** The browser-triggered download: with status ["ok"], the recorded file
    is [os.path.join(download_dir, name)] for the name chosen from
    [save_as] or the browser's suggested filename. *)
Definition browser_file_ok (E : env) (st : dict) (p : nat) (d : dict) : Prop :=
  exists sugg,
    (exists s2, e_download E s2 p = inr sugg /\ hd_error (s_log s2) = Some (p, OExpectDownload)) /\
    (forall n, lookup st "save_as" = Some (VStr n) ->
       lookup d "file" = Some (VStr (path_join (e_download_dir E) n))) /\
    (lookup st "save_as" = None ->
       lookup d "file" = Some (VStr (path_join (e_download_dir E)
                                  (if String.eqb sugg "" then "download.bin" else sugg)))).

Lemma body_browser_download E st s :
  has_key st "url" = false -> s_sr s = [] ->
  wp (body E "download" st)
     (fun _ s' => lookup (s_sr s') "status" = Some (VStr "ok") ->
                  browser_file_ok E st (s_page s) (s_sr s'))
     (fun _ _ => True) s.
Proof.
  intros Hurl H0. unfold body. wp_walk (fun _ : string => True).
  all: drop_branches.
  all: try congruence; try exact I.
  all: frames_to_eqs; simpl in *; intros Hst; sr_chain Hst;
       rewrite ?lookup_dset in Hst; simpl in Hst; try discriminate.
  all: try (destruct (continue_on_error st); discriminate).
  exists sugg. split; [exact Hsugg|].
  rewrite !lookup_dset. simpl.
  unfold dget_or in Hn. split.
  - intros n0 L. rewrite L in Hn. injection Hn as <-. reflexivity.
  - intros L. rewrite L in Hn.
    assert (Hnull : dget st "save_as" = VNull) by (unfold dget, dget_or; rewrite L; auto).
    rewrite Hnull in Hn. simpl in Hn.
    destruct (String.eqb sugg ""); simpl in Hn; injection Hn as <-; reflexivity.
  Unshelve. all: exact 0.
Qed.

(** A step result carrying key [k] with value [v] comes from a body that
    ended normally, when the body's exceptional ends leave [k] unset. *)
Lemma exec_step_key E idx a st s s1 sr r k v (Q : state -> Prop) :
  wp (body E a st) (fun _ s' => lookup (s_sr s') k = Some v -> Q s')
     (fun _ s' => lookup (s_sr s') k = None) (set_sr [] s) ->
  String.eqb k "status" = false -> String.eqb k "error" = false ->
  exec_step E idx a st s = (s1, sr, r) ->
  lookup (sr_fields sr) k = Some v ->
  Q s1 /\ sr = mkSR idx a st (s_sr s1).
Proof.
  intros Hb Hk1 Hk2 Hex Hst. unfold exec_step in Hex. unfold wp in Hb.
  destruct (body E a st (set_sr [] s)) as [s2 [e|u]].
  - injection Hex as <- <- <-. simpl in Hst.
    rewrite !lookup_dset, Hk1, Hk2, Hb in Hst. discriminate.
  - injection Hex as <- <- <-. simpl in Hst. auto.
Qed.

Lemma body_direct_fetch E st s :
  has_key st "url" = true -> s_sr s = [] ->
  wp (body E "download" st)
     (fun _ s' => lookup (s_sr s') "ok" = Some (VBool true) ->
        exists name, lookup (s_sr s') "file" = Some (VStr (path_join (e_download_dir E) name)) /\
                     fetch_name (dget st "url") (dget st "save_as") name)
     (fun _ s' => lookup (s_sr s') "ok" = None) s.
Proof.
  intros Hurl H0. unfold body. wp_walk_on (s_page s) (fun _ : string => True).
  all: drop_branches.
  all: try congruence; try (intros; exact I).
  all: frames_to_eqs; simpl in *; eq_chain; rewrite ?Hsr, ?H0; simpl; auto.
  all: try (intros Hok; discriminate Hok).
  intros _. destruct (Hr file eq_refl) as [name [Hname Hfile]].
  exists name. split; [congruence|].
  apply dget_lookup in Hv. rewrite Hv. exact Hname.
  Unshelve. all: exact 0.
Qed.

(** Steps with nothing to act on: a click-like step without a truthy
    [selector] or [text], or a download step without [url] that also has
    no truthy [selector] or [text]. *)
Definition missing_locator (a : string) (st : dict) : bool :=
  negb (truthy (dget st "selector")) && negb (truthy (dget st "text")) &&
  (String.eqb a "click" || String.eqb a "click_text" || String.eqb a "click_new_page" ||
   (String.eqb a "download" && negb (has_key st "url"))).

(** The message of the configuration error raised by such a step. *)
Definition config_msg (a : string) : string :=
  if String.eqb a "download" then "download needs selector/text/url"
  else if String.eqb a "click_new_page" then "click_new_page needs selector or text"
  else "click requires selector or text".

Definition config_fields (a : string) : dict :=
  [("status", VStr "error"); ("error", VStr (config_msg a))].

Lemma exec_step_config_error E idx a st s :
  missing_locator a st = true ->
  exec_step E idx a st s =
    (set_sr (config_fields a) s, mkSR idx a st (config_fields a),
     if continue_on_error st then None else Some (EOther (config_msg a))).
Proof.
  unfold missing_locator, config_fields, config_msg. intros H.
  destruct (truthy (dget st "selector")) eqn:Hs; [discriminate|].
  destruct (truthy (dget st "text")) eqn:Ht; [discriminate|]. simpl in H.
  destruct (String.eqb a "click") eqn:E1;
    [apply String.eqb_eq in E1; subst a; unfold exec_step, body; simpl;
     rewrite Hs, Ht; reflexivity|].
  destruct (String.eqb a "click_text") eqn:E2;
    [apply String.eqb_eq in E2; subst a; unfold exec_step, body; simpl;
     rewrite Hs, Ht; reflexivity|].
  destruct (String.eqb a "click_new_page") eqn:E3;
    [apply String.eqb_eq in E3; subst a; unfold exec_step, body; simpl;
     rewrite Hs, Ht; reflexivity|].
  destruct (String.eqb a "download") eqn:E4; [|discriminate].
  apply String.eqb_eq in E4. subst a. simpl in H.
  destruct (has_key st "url") eqn:Hu; [discriminate|].
  unfold exec_step, body. simpl. rewrite Hu, Hs, Ht. reflexivity.
Qed.

(** A step is read only through its keys other than ["action"]. *)
Lemma body_ext E a st1 st2 :
  (forall k, String.eqb k "action" = false -> lookup st1 k = lookup st2 k) ->
  body E a st1 = body E a st2.
Proof.
  intros H. unfold body, continue_on_error, dget, dget_or, dindex, has_key.
  rewrite ?(H "url"), ?(H "seconds"), ?(H "selector"), ?(H "value"), ?(H "text"),
          ?(H "continue_on_error"), ?(H "save_as") by reflexivity.
  reflexivity.
Qed.

(** [exec_step] with the raw step left out of its result. *)
Definition without_raw (x : state * step_result * option exn)
  : state * (nat * string * dict) * option exn :=
  match x with (s, sr, r) => (s, (sr_step sr, sr_action sr, sr_fields sr), r) end.

Lemma exec_step_ext E idx a st1 st2 s :
  (forall k, String.eqb k "action" = false -> lookup st1 k = lookup st2 k) ->
  without_raw (exec_step E idx a st1 s) = without_raw (exec_step E idx a st2 s).
Proof.
  intros H. unfold exec_step. rewrite (body_ext E a st1 st2 H).
  assert (Hc : continue_on_error st1 = continue_on_error st2).
  { unfold continue_on_error, dget_or. rewrite (H "continue_on_error") by reflexivity.
    reflexivity. }
  rewrite Hc. destruct (body E a st2 (set_sr [] s)) as [s1 [e|u]]; reflexivity.
Qed.

(** The final segment of a URL's path, as a URL is split into scheme,
    authority, path, query and fragment: the text after the last '/' of the
    path, leaving out any ["?query"] or ["#fragment"]. *)
Fixpoint before_query (s : string) : string :=
  match s with
  | EmptyString => EmptyString
  | String c r =>
      if Ascii.eqb c "?"%char || Ascii.eqb c "#"%char then EmptyString
      else String c (before_query r)
  end.

Fixpoint after_scheme (s : string) : option string :=
  match s with
  | EmptyString => None
  | String _ r =>
      if is_prefix "://" s then Some (String.substring 3 (String.length s - 3) s)
      else after_scheme r
  end.

Fixpoint from_slash (s : string) : string :=
  match s with
  | EmptyString => EmptyString
  | String c r => if Ascii.eqb c "/"%char then s else from_slash r
  end.

Definition url_final_path_segment (u : string) : string :=
  let v := before_query u in
  last_segment (match after_scheme v with Some r => from_slash r | None => v end).

(** ** Scenarios *)

(** A browser and network where every call succeeds. The process runs in
    [/app], downloads go to [/app/downloads], and the browser suggests
    [report.csv] for every download. *)
Definition env_ok : env :=
  mkEnv "/app" "/app/downloads"
        (fun _ _ _ => None) (fun _ _ => inr []) (fun _ _ _ => inr "")
        (fun _ => true) (fun _ _ => inr "report.csv")
        (fun _ _ => None) (fun _ _ => None) (fun _ _ => None)
        (fun _ => None) (fun _ => None).

(** The same, with every HTTP request answered by a 404. *)
Definition env_http_error : env :=
  mkEnv "/app" "/app/downloads"
        (fun _ _ _ => None) (fun _ _ => inr []) (fun _ _ _ => inr "")
        (fun _ => true) (fun _ _ => inr "report.csv")
        (fun _ _ => Some (EOther "404 Client Error: Not Found"))
        (fun _ _ => None) (fun _ _ => None)
        (fun _ => None) (fun _ => None).

(** The same as [env_ok], with no element matching any text: clicks by text
    time out and the fallback finds no candidate. *)
Definition env_text_missing : env :=
  mkEnv "/app" "/app/downloads"
        (fun _ _ o => match o with
                      | OClickByText _ => Some (ETimeout "Timeout 30000ms exceeded.")
                      | _ => None
                      end)
        (fun _ _ => inr []) (fun _ _ _ => inr "")
        (fun _ => true) (fun _ _ => inr "report.csv")
        (fun _ _ => None) (fun _ _ => None) (fun _ _ => None)
        (fun _ => None) (fun _ => None).

(** Before the run: no page, nothing logged or written. *)
Definition s_init : state := mkState 0 [] [] 0 [] [].

(** Inside the run, before its first step: page 0 is current. *)
Definition s_ready : state := mkState 1 [] [] 0 [] [].

Definition step_goto : dict :=
  [("action", VStr "goto"); ("url", VStr "https://example.test/home")].

Definition step_fetch : dict :=
  [("action", VStr "download"); ("url", VStr "https://example.test/file.csv")].

Definition step_fetch_query : dict :=
  [("action", VStr "download"); ("url", VStr "https://example.test/data/file.csv?version=2")].

Definition step_browser_download : dict :=
  [("action", VStr "download"); ("text", VStr "Export")].

Definition step_open_report : dict :=
  [("action", VStr "click_new_page"); ("text", VStr "Open report")].

Definition step_click_missing : dict :=
  [("action", VStr "click"); ("text", VStr "Nonexistent Button")].

Definition feed (steps : list dict) : feed_guide := mkGuide (VStr "feed") steps.

(** The step results of a run, when it returns. *)
Definition returned_steps (o : outcome) : option (list step_result) :=
  match o with Returned r => Some (rr_steps r) | Raised _ _ => None end.

(** ** Claims *)

(** C1: a step without a locator (a click, click_text or click_new_page
    step with neither a truthy selector nor a truthy text, or a download
    step with no url key and neither a truthy selector nor a truthy text)
    ends with an error step result carrying the configuration error; the
    loop then goes on to the next step when the step's continue_on_error is
    truthy, and stops with that error otherwise. *)
Theorem config_error_follows_continue_on_error E st rest idx s acc a :
  action_of st = inr a -> missing_locator a st = true ->
  loop E (st :: rest) idx s acc =
    if continue_on_error st
    then loop E rest (S idx) (set_sr (config_fields a) s)
              (acc ++ [mkSR idx a st (config_fields a)])%list
    else (set_sr (config_fields a) s, (acc ++ [mkSR idx a st (config_fields a)])%list,
          Some (EOther (config_msg a))).
Proof.
  intros Hact Hmiss. simpl. rewrite Hact, (exec_step_config_error E idx a st s Hmiss).
  destruct (continue_on_error st); reflexivity.
Qed.

Lemma config_error_follows_continue_on_error_witness :
  loop env_ok ([("action", VStr "click"); ("continue_on_error", VBool true)] :: [step_goto])
       1 s_ready [] =
  loop env_ok [step_goto] 2 (set_sr (config_fields "click") s_ready)
       [mkSR 1 "click" [("action", VStr "click"); ("continue_on_error", VBool true)]
             (config_fields "click")].
Proof.
  apply (config_error_follows_continue_on_error env_ok
           [("action", VStr "click"); ("continue_on_error", VBool true)] [step_goto]
           1 s_ready [] "click"); vm_compute; reflexivity.
Defined.

(** C1 (counterexample): a click step with neither selector nor text but
    with continue_on_error=true does not end the run: the next step runs and
    the run returns two step results. *)
Lemma config_error_continues_counterexample :
  option_map (map (fun sr => (sr_step sr, lookup (sr_fields sr) "status")))
    (returned_steps (snd (run env_ok
       (feed [[("action", VStr "click"); ("continue_on_error", VBool true)]; step_goto])
       s_init))) =
  Some [(1, Some (VStr "error")); (2, Some (VStr "ok"))].
Proof. vm_compute. reflexivity. Qed.

(** C2: a direct-fetch download whose request fails, without
    continue_on_error, is recorded as [{ok: False, error}] with no status
    key, and the run goes on to the next step and returns. *)
Theorem direct_fetch_failure_does_not_abort :
  option_map (map sr_fields)
    (returned_steps (snd (run env_http_error
       (feed [[("action", VStr "download"); ("url", VStr "https://example.test/missing.csv")];
              step_goto]) s_init))) =
  Some [[("ok", VBool false); ("error", VStr "404 Client Error: Not Found")];
        [("status", VStr "ok"); ("info", VStr "Navigated to https://example.test/home")]].
Proof. vm_compute. reflexivity. Qed.

(** C3: the step result of a successful direct-fetch download has the keys
    ok and file and no status key. *)
Theorem direct_fetch_result_has_no_status :
  option_map (map sr_fields)
    (returned_steps (snd (run env_ok (feed [step_fetch]) s_init))) =
  Some [[("ok", VBool true); ("file", VStr "/app/downloads/file.csv")]] /\
  option_map (map (fun sr => lookup (sr_fields sr) "status"))
    (returned_steps (snd (run env_ok (feed [step_fetch]) s_init))) = Some [None].
Proof. split; vm_compute; reflexivity. Qed.

(** C4: a browser-triggered download with download_dir [/app/downloads]
    also writes [bos_history.xls] in the working directory [/app], outside
    download_dir, besides its destination [/app/downloads/report.csv]. *)
Theorem browser_download_writes_outside_download_dir :
  s_files (fst (run env_ok (feed [step_browser_download]) s_init)) =
    ["/app/downloads/report.csv"; "/app/bos_history.xls"] /\
  is_prefix (e_download_dir env_ok ++ "/") "/app/bos_history.xls" = false.
Proof. split; vm_compute; reflexivity. Qed.

(** C5: a browser-triggered download step (action download, no url key)
    whose step result has status ok records as its file
    [os.path.join(download_dir, name)], where name is the step's save_as
    when that key holds a string, and otherwise the suggested filename the
    browser reported for the download on the current page, or
    [download.bin] when that is empty. *)
Theorem browser_download_destination E st idx s s1 sr r :
  has_key st "url" = false ->
  exec_step E idx "download" st s = (s1, sr, r) ->
  lookup (sr_fields sr) "status" = Some (VStr "ok") ->
  exists sugg,
    (exists s2, e_download E s2 (s_page s) = inr sugg /\
                hd_error (s_log s2) = Some (s_page s, OExpectDownload)) /\
    (forall n, lookup st "save_as" = Some (VStr n) ->
       lookup (sr_fields sr) "file" = Some (VStr (path_join (e_download_dir E) n))) /\
    (lookup st "save_as" = None ->
       lookup (sr_fields sr) "file" =
         Some (VStr (path_join (e_download_dir E)
                      (if String.eqb sugg "" then "download.bin" else sugg)))).
Proof.
  intros Hu Hex Hst.
  destruct (exec_step_ok E idx "download" st s s1 sr r
              (fun s' => browser_file_ok E st (s_page s) (s_sr s'))
              (body_browser_download E st (set_sr [] s) Hu eq_refl) Hex Hst)
    as [HQ [Hsr _]].
  subst sr. exact HQ.
Qed.

Lemma browser_download_destination_witness :
  exists sugg,
    (exists s2, e_download env_ok s2 0 = inr sugg /\
                hd_error (s_log s2) = Some (0, OExpectDownload)) /\
    (forall n, lookup step_browser_download "save_as" = Some (VStr n) ->
       lookup (sr_fields (snd (fst (exec_step env_ok 1 "download" step_browser_download s_ready))))
         "file" = Some (VStr (path_join "/app/downloads" n))) /\
    (lookup step_browser_download "save_as" = None ->
       lookup (sr_fields (snd (fst (exec_step env_ok 1 "download" step_browser_download s_ready))))
         "file" = Some (VStr (path_join "/app/downloads"
                               (if String.eqb sugg "" then "download.bin" else sugg)))).
Proof.
  apply (browser_download_destination env_ok step_browser_download 1 s_ready
           (fst (fst (exec_step env_ok 1 "download" step_browser_download s_ready)))
           (snd (fst (exec_step env_ok 1 "download" step_browser_download s_ready)))
           (snd (exec_step env_ok 1 "download" step_browser_download s_ready)));
    vm_compute; reflexivity.
Defined.

(** C6: when a step yields a step result with status error and its
    continue_on_error is unset or falsy, the loop ends there: that step
    result is the last one appended, and an exception leaves the loop
    (and [run], which re-raises it after closing the page). *)
Theorem error_step_ends_loop E st rest idx s acc a s1 sr r :
  action_of st = inr a ->
  exec_step E idx a st s = (s1, sr, r) ->
  lookup (sr_fields sr) "status" = Some (VStr "error") ->
  continue_on_error st = false ->
  exists e, loop E (st :: rest) idx s acc = (s1, (acc ++ [sr])%list, Some e).
Proof.
  intros Hact Hex Hst Hc.
  destruct (exec_step_error E idx a st s s1 sr r Hex Hst Hc) as [e ->].
  exists e. simpl. rewrite Hact, Hex. reflexivity.
Qed.

Lemma error_step_ends_loop_witness :
  exists e,
    loop env_text_missing (step_click_missing :: [step_goto]) 1 s_ready [] =
    (fst (fst (exec_step env_text_missing 1 "click" step_click_missing s_ready)),
     ([] ++ [snd (fst (exec_step env_text_missing 1 "click" step_click_missing s_ready))])%list,
     Some e).
Proof.
  apply (error_step_ends_loop env_text_missing step_click_missing [step_goto] 1 s_ready []
           "click"
           (fst (fst (exec_step env_text_missing 1 "click" step_click_missing s_ready)))
           (snd (fst (exec_step env_text_missing 1 "click" step_click_missing s_ready)))
           (snd (exec_step env_text_missing 1 "click" step_click_missing s_ready)));
    vm_compute; reflexivity.
Defined.

(** C7: a direct-fetch download whose request fails, with
    continue_on_error=true, is recorded as [{ok: False, error}] with no
    status key (in particular not status=error); the run goes on. *)
Theorem direct_fetch_failure_continue_has_no_status :
  option_map (map sr_fields)
    (returned_steps (snd (run env_http_error
       (feed [[("action", VStr "download"); ("url", VStr "https://example.test/missing.csv");
               ("continue_on_error", VBool true)]; step_goto]) s_init))) =
  Some [[("ok", VBool false); ("error", VStr "404 Client Error: Not Found")];
        [("status", VStr "ok"); ("info", VStr "Navigated to https://example.test/home")]].
Proof. vm_compute. reflexivity. Qed.

(** C8 (counterexample): with no save_as, the URL
    [https://example.test/data/file.csv?version=2] is saved as
    [file.csv?version=2], while the final segment of its path is
    [file.csv]. *)
Lemma direct_fetch_name_counterexample :
  ~ (forall E st idx s s1 sr r u,
       has_key st "url" = true -> dget st "url" = VStr u ->
       has_key st "save_as" = false ->
       exec_step E idx "download" st s = (s1, sr, r) ->
       lookup (sr_fields sr) "ok" = Some (VBool true) ->
       lookup (sr_fields sr) "file" =
         Some (VStr (path_join (e_download_dir E)
                      (if String.eqb (url_final_path_segment u) "" then "download.bin"
                       else url_final_path_segment u)))).
Proof.
  intros H.
  specialize (H env_ok step_fetch_query 1 s_ready
                (fst (fst (exec_step env_ok 1 "download" step_fetch_query s_ready)))
                (snd (fst (exec_step env_ok 1 "download" step_fetch_query s_ready)))
                (snd (exec_step env_ok 1 "download" step_fetch_query s_ready))
                "https://example.test/data/file.csv?version=2"
                eq_refl eq_refl eq_refl).
  vm_compute in H. specialize (H eq_refl eq_refl). discriminate H.
Qed.

(** C8: a direct-fetch download step (a url key) whose step result has
    ok=True records as its file [os.path.join(download_dir, name)], where
    name is the step's save_as when that is truthy, and otherwise the text
    after the last '/' of the whole url string (query and fragment
    included), or [download.bin] when that text is empty. *)
Theorem direct_fetch_filename E st idx s s1 sr r :
  has_key st "url" = true ->
  exec_step E idx "download" st s = (s1, sr, r) ->
  lookup (sr_fields sr) "ok" = Some (VBool true) ->
  exists name,
    lookup (sr_fields sr) "file" = Some (VStr (path_join (e_download_dir E) name)) /\
    ((truthy (dget st "save_as") = true /\ dget st "save_as" = VStr name) \/
     (truthy (dget st "save_as") = false /\
      exists u, dget st "url" = VStr u /\
        name = (if String.eqb (last_segment u) "" then "download.bin" else last_segment u))).
Proof.
  intros Hu Hex Hok.
  destruct (exec_step_key E idx "download" st s s1 sr r "ok" (VBool true)
              (fun s' => exists name,
                 lookup (s_sr s') "file" = Some (VStr (path_join (e_download_dir E) name)) /\
                 fetch_name (dget st "url") (dget st "save_as") name)
              (body_direct_fetch E st (set_sr [] s) Hu eq_refl)
              eq_refl eq_refl Hex Hok) as [[name [Hf Hn]] ->].
  exists name. split; [exact Hf|].
  destruct Hn as [Hn|Hn]; [left|right]; exact Hn.
Qed.

Lemma direct_fetch_filename_witness :
  exists name,
    lookup (sr_fields (snd (fst (exec_step env_ok 1 "download" step_fetch_query s_ready))))
      "file" = Some (VStr (path_join "/app/downloads" name)) /\
    ((truthy (dget step_fetch_query "save_as") = true /\
      dget step_fetch_query "save_as" = VStr name) \/
     (truthy (dget step_fetch_query "save_as") = false /\
      exists u, dget step_fetch_query "url" = VStr u /\
        name = (if String.eqb (last_segment u) "" then "download.bin" else last_segment u))).
Proof.
  apply (direct_fetch_filename env_ok step_fetch_query 1 s_ready
           (fst (fst (exec_step env_ok 1 "download" step_fetch_query s_ready)))
           (snd (fst (exec_step env_ok 1 "download" step_fetch_query s_ready)))
           (snd (exec_step env_ok 1 "download" step_fetch_query s_ready)));
    vm_compute; reflexivity.
Defined.

(** C9: a click_new_page step whose step result has status ok makes the
    page it opened current: a page other than the one current before it.
    The loop then goes on from there, every later page call goes to that
    page or to one opened after it, and all of them go to that page when
    no later step is a click_new_page step. *)
Theorem click_new_page_switches_page E st rest idx s acc s1 sr r :
  s_page s < s_next s ->
  action_of st = inr "click_new_page" ->
  exec_step E idx "click_new_page" st s = (s1, sr, r) ->
  lookup (sr_fields sr) "status" = Some (VStr "ok") ->
  s_page s1 = s_next s /\ s_page s1 <> s_page s /\
  loop E (st :: rest) idx s acc = loop E rest (S idx) s1 (acc ++ [sr])%list /\
  log_since s1 (fst (fst (loop E rest (S idx) s1 (acc ++ [sr])%list)))
            (fun e => s_page s1 <= fst e) /\
  ((forall st', In st' rest -> action_of st' <> inr "click_new_page") ->
   log_since s1 (fst (fst (loop E rest (S idx) s1 (acc ++ [sr])%list)))
             (fun e => fst e = s_page s1)).
Proof.
  intros Hwf Hact Hex Hst.
  pose proof (exec_step_pages E idx "click_new_page" st s Hwf) as Hpg.
  rewrite Hex in Hpg. simpl in Hpg. destruct Hpg as [_ [Hwf1 _]].
  destruct (exec_step_ok E idx "click_new_page" st s s1 sr r (fun s' => s_page s' = s_next s))
    as [Hp [_ Hr]]; auto.
  { eapply wp_mono; [apply (body_click_new_page E st (set_sr [] s))| |]; simpl; auto. }
  subst r.
  destruct (loop_pages E rest (S idx) s1 (acc ++ [sr])%list (s_page s1) Hwf1 (le_n _))
    as [L1 L2].
  split; [exact Hp|]. split; [lia|]. split; [simpl; rewrite Hact, Hex; reflexivity|].
  split; [exact L1|]. intros Hno. apply L2; auto.
Qed.

Lemma click_new_page_switches_page_witness :
  let X := exec_step env_ok 1 "click_new_page" step_open_report s_ready in
  s_page (fst (fst X)) = 1 /\ s_page (fst (fst X)) <> 0 /\
  loop env_ok (step_open_report :: [step_goto]) 1 s_ready [] =
    loop env_ok [step_goto] 2 (fst (fst X)) ([] ++ [snd (fst X)])%list /\
  log_since (fst (fst X)) (fst (fst (loop env_ok [step_goto] 2 (fst (fst X)) ([] ++ [snd (fst X)])%list)))
            (fun e => s_page (fst (fst X)) <= fst e) /\
  ((forall st', In st' [step_goto] -> action_of st' <> inr "click_new_page") ->
   log_since (fst (fst X)) (fst (fst (loop env_ok [step_goto] 2 (fst (fst X)) ([] ++ [snd (fst X)])%list)))
             (fun e => fst e = s_page (fst (fst X)))).
Proof.
  intros X.
  apply (click_new_page_switches_page env_ok step_open_report [step_goto] 1 s_ready []
           (fst (fst X)) (snd (fst X)) (snd X));
    unfold X; vm_compute; reflexivity.
Defined.

(** C10: the action is matched lowercased: a step whose action is a
    non-empty string x has action [lower x]; steps that differ only in
    their action key are executed alike (up to the raw step kept in the
    result); click_text runs the same body as click; and a step whose
    action is missing or None has action [""], which ends as an error step
    result with ["Unknown action: "]. *)
Theorem action_dispatch E :
  (forall st x, dget st "action" = VStr x -> x <> "" -> action_of st = inr (lower x)) /\
  (forall st1 st2 a idx s,
     (forall k, String.eqb k "action" = false -> lookup st1 k = lookup st2 k) ->
     without_raw (exec_step E idx a st1 s) = without_raw (exec_step E idx a st2 s)) /\
  (forall st, body E "click_text" st = body E "click" st) /\
  (forall st idx s, dget st "action" = VNull ->
     action_of st = inr "" /\
     lookup (sr_fields (snd (fst (exec_step E idx "" st s)))) "status" = Some (VStr "error") /\
     lookup (sr_fields (snd (fst (exec_step E idx "" st s)))) "error" =
       Some (VStr "Unknown action: ")).
Proof.
  split; [|split; [|split]].
  - intros st x Hx Hne. unfold action_of. rewrite Hx. simpl.
    destruct (String.eqb x "") eqn:He; [apply String.eqb_eq in He; contradiction|].
    reflexivity.
  - intros st1 st2 a idx s H. apply exec_step_ext. exact H.
  - intros st. reflexivity.
  - intros st idx s Hn. unfold action_of. rewrite Hn. split; [reflexivity|].
    unfold exec_step, body. simpl.
    destruct (continue_on_error st); split; reflexivity.
Qed.

Lemma action_dispatch_witness :
  action_of [("action", VStr "GOTO"); ("url", VStr "https://example.test/home")] = inr "goto" /\
  without_raw (exec_step env_ok 1 "goto"
                 [("action", VStr "GOTO"); ("url", VStr "https://example.test/home")] s_ready) =
  without_raw (exec_step env_ok 1 "goto" step_goto s_ready).
Proof.
  destruct (action_dispatch env_ok) as [H1 [H2 _]]. split.
  - apply (H1 _ "GOTO"); [reflexivity | discriminate].
  - apply H2. intros k Hk. unfold step_goto. simpl.
    rewrite Hk. reflexivity.
Defined.

(** ** More of [FeedGuideRunner.run] *)

(** The [finally] block's [page.close()], whose exception is ignored. *)
Lemma close_state E p s1 :
  fst (try_catch (call E p OClose) (fun _ => ret tt) s1) =
  set_log ((p, OClose) :: s_log s1) s1.
Proof.
  unfold try_catch, call, bind, log_call, modify, raise_opt, ret. simpl.
  destruct (e_call E _ p OClose); reflexivity.
Qed.

Lemma exec_step_record E idx a st s :
  sr_step (snd (fst (exec_step E idx a st s))) = idx /\
  sr_action (snd (fst (exec_step E idx a st s))) = a /\
  sr_raw (snd (fst (exec_step E idx a st s))) = st.
Proof.
  unfold exec_step. destruct (body E a st (set_sr [] s)) as [s1 [e|u]]; simpl; auto.
Qed.

Lemma loop_records E steps idx s acc :
  exists nw, snd (fst (loop E steps idx s acc)) = (acc ++ nw)%list /\
    map sr_step nw = seq idx (length nw) /\
    map sr_raw nw = firstn (length nw) steps /\
    (snd (loop E steps idx s acc) = None -> length nw = length steps).
Proof.
  revert idx s acc. induction steps as [|st rest IH]; intros idx s acc.
  - exists nil. simpl. rewrite app_nil_r. auto.
  - simpl. destruct (action_of st) as [e|a].
    + exists nil. simpl. rewrite app_nil_r. repeat split; auto. discriminate.
    + pose proof (exec_step_record E idx a st s) as [Hi [_ Hr]].
      destruct (exec_step E idx a st s) as [[s1 sr] [e|]]; simpl in Hi, Hr.
      * exists [sr]. simpl. rewrite Hi, Hr. repeat split; auto. discriminate.
      * destruct (IH (S idx) s1 (acc ++ [sr])%list) as [nw [H1 [H2 [H3 H4]]]].
        exists (sr :: nw). rewrite H1, <- app_assoc. simpl.
        rewrite Hi, Hr, H2, H3. repeat split; auto; try discriminate.
        all: intros Hn; rewrite (H4 Hn); reflexivity.
Qed.

(** The download paths a step result records: its [file], if any. *)
Definition file_of (d : dict) : list string :=
  match lookup d "file" with Some (VStr f) => [f] | _ => [] end.

Lemma body_downloads E a st s :
  s_sr s = [] ->
  wp (body E a st)
     (fun _ s' => s_downloads s' = (s_downloads s ++ file_of (s_sr s'))%list)
     (fun _ s' => s_downloads s' = s_downloads s /\ lookup (s_sr s') "file" = None) s.
Proof.
  intros H0. unfold body. wp_walk (fun _ : string => True).
  all: frames_to_eqs; simpl in *.
  all: repeat match goal with
       | H : s_sr ?x = _ |- context [s_sr ?x] => rewrite H
       | H : s_downloads ?x = _ |- context [s_downloads ?x] => rewrite H
       end.
  all: unfold file_of; simpl; rewrite ?app_nil_r; auto.
  Unshelve. all: exact 0.
Qed.

Lemma exec_step_downloads E idx a st s :
  s_downloads (fst (fst (exec_step E idx a st s))) =
  (s_downloads s ++ file_of (sr_fields (snd (fst (exec_step E idx a st s)))))%list.
Proof.
  pose proof (body_downloads E a st (set_sr [] s) eq_refl) as Hb.
  unfold exec_step. unfold wp in Hb.
  destruct (body E a st (set_sr [] s)) as [s1 [e|u]]; simpl in *.
  - destruct Hb as [Hd Hf]. rewrite Hd. unfold file_of.
    rewrite !lookup_dset. simpl. rewrite Hf, app_nil_r. reflexivity.
  - exact Hb.
Qed.

Lemma loop_downloads E steps idx s acc :
  exists nw, snd (fst (loop E steps idx s acc)) = (acc ++ nw)%list /\
    s_downloads (fst (fst (loop E steps idx s acc))) =
    (s_downloads s ++ flat_map (fun sr => file_of (sr_fields sr)) nw)%list.
Proof.
  revert idx s acc. induction steps as [|st rest IH]; intros idx s acc.
  - exists nil. simpl. rewrite !app_nil_r. auto.
  - simpl. destruct (action_of st) as [e|a].
    + exists nil. simpl. rewrite !app_nil_r. auto.
    + pose proof (exec_step_downloads E idx a st s) as Hd.
      destruct (exec_step E idx a st s) as [[s1 sr] [e|]]; simpl in Hd.
      * exists [sr]. simpl. rewrite app_nil_r. auto.
      * destruct (IH (S idx) s1 (acc ++ [sr])%list) as [nw [H1 H2]].
        exists (sr :: nw). rewrite H1, <- app_assoc. split; [reflexivity|].
        rewrite H2, Hd. simpl. rewrite app_assoc. reflexivity.
Qed.

(** Without a [click_new_page] step the loop keeps its current page. *)
Lemma loop_page_same E steps idx s acc :
  s_page s < s_next s ->
  (forall st, In st steps -> action_of st <> inr "click_new_page") ->
  s_page (fst (fst (loop E steps idx s acc))) = s_page s.
Proof.
  revert idx s acc. induction steps as [|st rest IH]; intros idx s acc Hwf Hno.
  - reflexivity.
  - simpl. destruct (action_of st) as [e|a] eqn:Hact; [reflexivity|].
    pose proof (exec_step_pages E idx a st s Hwf) as Hpg.
    destruct (exec_step E idx a st s) as [[s1 sr] r]. simpl in Hpg.
    destruct Hpg as [_ [Hwf1 [_ [_ Hnot]]]].
    assert (Ha : String.eqb a "click_new_page" = false).
    { destruct (String.eqb a "click_new_page") eqn:Hq; auto.
      apply String.eqb_eq in Hq. subst a. exfalso. apply (Hno st); [left; auto | auto]. }
    destruct (Hnot Ha) as [_ [Hps _]].
    destruct r as [e|]; simpl; [exact Hps|].
    rewrite IH; auto. intros st' Hin. apply Hno. right. exact Hin.
Qed.

(** X1: the step results of a run are numbered 1, 2, ... in guide order,
    each holding its raw step. When the run ends normally there is one for
    every step of the guide; when it raises, they are those of a prefix of
    the guide. *)
Theorem run_step_results E g s :
  match snd (run E g s) with
  | Returned r =>
      map sr_step (rr_steps r) = seq 1 (length (fg_steps g)) /\
      map sr_raw (rr_steps r) = fg_steps g
  | Raised _ r =>
      map sr_step (rr_steps r) = seq 1 (length (rr_steps r)) /\
      map sr_raw (rr_steps r) = firstn (length (rr_steps r)) (fg_steps g)
  end.
Proof.
  unfold run. destruct (e_launch E s) as [e|]; [simpl; auto|].
  set (s0 := set_downloads [] (set_sr [] (set_page (s_next s) (set_next (S (s_next s)) s)))).
  destruct (loop_records E (fg_steps g) 1 s0 []) as [nw [H1 [H2 [H3 H4]]]].
  destruct (loop E (fg_steps g) 1 s0 []) as [[s1 acc] r]. simpl in *. subst acc.
  destruct r as [e|]; simpl.
  - auto.
  - rewrite <- (H4 eq_refl). split; [exact H2|].
    rewrite H3, (H4 eq_refl). apply firstn_all.
Qed.

(** X2: [results["downloads"]] lists exactly the [file] paths of the
    recorded step results, in step order, whether the run ends normally or
    raises. *)
Theorem run_downloads_are_step_files E g s :
  match snd (run E g s) with
  | Returned r | Raised _ r =>
      rr_downloads r = flat_map (fun sr => file_of (sr_fields sr)) (rr_steps r)
  end.
Proof.
  unfold run. destruct (e_launch E s) as [e|]; [reflexivity|].
  set (s0 := set_downloads [] (set_sr [] (set_page (s_next s) (set_next (S (s_next s)) s)))).
  destruct (loop_downloads E (fg_steps g) 1 s0 []) as [nw [H1 H2]].
  destruct (loop E (fg_steps g) 1 s0 []) as [[s1 acc] r]. simpl in *. subst acc.
  rewrite close_state. simpl. rewrite H2.
  destruct r; reflexivity.
Qed.

(** X3: once the browser is up, the last page call of a run is
    [page.close()] on the page current at its end, also when a step raised;
    when no step is a click_new_page step, that is the page the run opened
    first. *)
Theorem run_closes_current_page E g s :
  e_launch E s = None ->
  hd_error (s_log (fst (run E g s))) = Some (s_page (fst (run E g s)), OClose) /\
  ((forall st, In st (fg_steps g) -> action_of st <> inr "click_new_page") ->
   s_page (fst (run E g s)) = s_next s).
Proof.
  intros Hl. unfold run. rewrite Hl.
  set (s0 := set_downloads [] (set_sr [] (set_page (s_next s) (set_next (S (s_next s)) s)))).
  assert (Hwf : s_page s0 < s_next s0) by (simpl; lia).
  pose proof (loop_page_same E (fg_steps g) 1 s0 [] Hwf) as Hsame.
  destruct (loop E (fg_steps g) 1 s0 []) as [[s1 acc] r]. simpl in *.
  rewrite close_state. simpl. split; [reflexivity|]. intros Hno. exact (Hsame Hno).
Qed.

Lemma run_closes_current_page_witness :
  hd_error (s_log (fst (run env_ok (feed [step_goto]) s_init))) =
    Some (s_page (fst (run env_ok (feed [step_goto]) s_init)), OClose) /\
  ((forall st, In st (fg_steps (feed [step_goto])) -> action_of st <> inr "click_new_page") ->
   s_page (fst (run env_ok (feed [step_goto]) s_init)) = s_next s_init).
Proof. apply run_closes_current_page. reflexivity. Defined.

(** What a successful fallback click of [_safe_click_by_text] did: the
    element's stripped inner text is non-empty and contains the text sought,
    ignoring case, and clicking it was the last call and succeeded. *)
Definition fallback_hit (E : env) (p : nat) (text : val) (inner : string) (s' : state) : Prop :=
  exists tx a, text = VStr tx /\ inner <> "" /\ contains (lower tx) (lower inner) = true /\
    (exists s0 t, e_inner_text E s0 p a = inr t /\ inner = strip t) /\
    hd_error (s_log s') = Some (p, OElemClick a) /\ e_call E s' p (OElemClick a) = None.

Lemma fallback_elem_ok E p text a s :
  wp (fallback_elem E p text a)
     (fun r s' => r = None \/ exists inner, r = Some inner /\ fallback_hit E p text inner s')
     (fun _ _ => False) s.
Proof.
  unfold fallback_elem, try_catch, inner_text, call, log_call, bind, modify, ret, throw,
    raise_opt, wp. simpl.
  destruct (e_inner_text E _ p a) as [e|t] eqn:Ht; simpl; auto.
  destruct (String.eqb (strip t) "") eqn:He; simpl; auto.
  destruct text as [| | |tx]; simpl; auto.
  destruct (contains (lower tx) (lower (strip t))) eqn:Hc; simpl; auto.
  destruct (e_call E _ p (OElemClick a)) eqn:Hcall; simpl; auto.
  right. exists (strip t). split; [reflexivity|].
  exists tx, a. repeat split; auto.
  - intros Hs. rewrite Hs in He. discriminate.
  - eauto.
Qed.

Lemma fallback_loop_ok E p text els s :
  wp (fallback_loop E p text els)
     (fun r s' => r = None \/ exists inner, r = Some inner /\ fallback_hit E p text inner s')
     (fun _ _ => False) s.
Proof.
  revert s. induction els as [|a rest IH]; intros s; simpl.
  - apply wp_ret. auto.
  - apply wp_bind. eapply wp_mono; [apply fallback_elem_ok| |auto].
    intros r s' [->|[inner [-> Hh]]].
    + apply IH.
    + apply wp_ret. right. eauto.
Qed.

(** The three results of [_safe_click_by_text]. *)
Definition click_outcome (E : env) (p : nat) (text : val) (r : bool * string) (s' : state) : Prop :=
  r = (false, "Element with text '" ++ py_str text ++ "' not found") \/
  (r = (true, "Clicked by text='" ++ py_str text ++ "'") /\
   hd_error (s_log s') = Some (p, OClickByText text) /\ e_call E s' p (OClickByText text) = None) \/
  (exists inner, r = (true, "Clicked fallback element with text='" ++ inner ++ "'") /\
   fallback_hit E p text inner s').

(** X4: [_safe_click_by_text] never raises. It returns
    [(False, "Element with text 'T' not found")]; or
    [(True, "Clicked by text='T'")] after a click through [get_by_text]
    that succeeded; or [(True, "Clicked fallback element with text='I'")]
    after a successful click on an element whose stripped inner text [I] is
    non-empty and contains [T], ignoring case. *)
Theorem safe_click_by_text_outcome E p text s :
  wp (safe_click_by_text E p text) (click_outcome E p text) (fun _ _ => False) s.
Proof.
  unfold safe_click_by_text. apply wp_try. apply wp_bind.
  unfold call. apply wp_bind. unfold log_call. apply wp_modify. apply wp_raise_opt.
  - intros Hc. apply wp_ret. right. left. auto.
  - intros e _. apply wp_bind. apply wp_try. apply wp_bind.
    unfold query_all. apply wp_bind. unfold log_call. apply wp_modify.
    unfold wp at 1. simpl.
    destruct (e_elements E _ p) as [e1|els].
    + apply wp_ret. apply wp_ret. left. reflexivity.
    + eapply wp_mono; [apply fallback_loop_ok| |].
      * intros r s' [->|[inner [-> Hh]]]; simpl; apply wp_ret.
        -- left. reflexivity.
        -- right. right. exists inner. split; [reflexivity | exact Hh].
      * intros e2 s' [].
Qed.

(** The key a step reads with [step[...]] before its page call. *)
Definition required_key (a : string) : option string :=
  if String.eqb a "goto" then Some "url"
  else if String.eqb a "wait_for_selector" || String.eqb a "fill" then Some "selector"
  else None.

(** The fields of a step result that ends with error [m]. *)
Definition error_fields (m : string) : dict :=
  [("status", VStr "error"); ("error", VStr m)].

(** X5: a goto step without [url], or a wait_for_selector or fill step
    without [selector], makes no page call: its step result is an error
    whose message is the quoted key (the [str] of the KeyError), and the loop
    stops with that error unless the step's continue_on_error is truthy. *)
Theorem missing_key_step E idx a st s k :
  required_key a = Some k -> lookup st k = None ->
  exec_step E idx a st s =
    (set_sr (error_fields ("'" ++ k ++ "'")) s,
     mkSR idx a st (error_fields ("'" ++ k ++ "'")),
     if continue_on_error st then None else Some (EOther ("'" ++ k ++ "'"))).
Proof.
  unfold required_key. intros Hk Hl.
  destruct (String.eqb a "goto") eqn:E1.
  - apply String.eqb_eq in E1. subst a. injection Hk as <-.
    unfold exec_step, body, dindex. simpl. rewrite Hl. reflexivity.
  - destruct (String.eqb a "wait_for_selector") eqn:E2.
    + apply String.eqb_eq in E2. subst a. injection Hk as <-.
      unfold exec_step, body, dindex. simpl. rewrite Hl. reflexivity.
    + destruct (String.eqb a "fill") eqn:E3; [|discriminate].
      apply String.eqb_eq in E3. subst a. injection Hk as <-.
      unfold exec_step, body, dindex. simpl. rewrite Hl. reflexivity.
Qed.

Lemma missing_key_step_witness :
  exec_step env_ok 1 "fill" [("action", VStr "fill"); ("value", VStr "x")] s_ready =
    (set_sr (error_fields ("'" ++ "selector" ++ "'")) s_ready,
     mkSR 1 "fill" [("action", VStr "fill"); ("value", VStr "x")]
          (error_fields ("'" ++ "selector" ++ "'")),
     if continue_on_error [("action", VStr "fill"); ("value", VStr "x")] then None
     else Some (EOther ("'" ++ "selector" ++ "'"))).
Proof. apply missing_key_step; reflexivity. Defined.

(** The actions [run] dispatches on. *)
Definition known_action (a : string) : bool :=
  existsb (String.eqb a)
    ["goto"; "wait"; "wait_for_selector"; "fill"; "click"; "click_text";
     "click_new_page"; "download"].

(** X6: a step whose action is none of the known ones makes no page call
    and records the error ["Unknown action: " ++ a]; the loop stops with that
    error unless the step's continue_on_error is truthy. The recorded fields
    are the same either way. *)
Theorem unknown_action_step E idx a st s :
  known_action a = false ->
  exec_step E idx a st s =
    (set_sr (error_fields ("Unknown action: " ++ a)) s,
     mkSR idx a st (error_fields ("Unknown action: " ++ a)),
     if continue_on_error st then None else Some (EOther ("Unknown action: " ++ a))).
Proof.
  unfold known_action. simpl. intros H.
  repeat (apply orb_false_iff in H; destruct H as [? H]).
  unfold exec_step, body.
  repeat match goal with Hq : String.eqb a _ = false |- _ => rewrite Hq; clear Hq end.
  simpl. destruct (continue_on_error st); reflexivity.
Qed.

Lemma unknown_action_step_witness :
  exec_step env_ok 3 "scroll" [("action", VStr "Scroll")] s_ready =
    (set_sr (error_fields ("Unknown action: " ++ "scroll")) s_ready,
     mkSR 3 "scroll" [("action", VStr "Scroll")] (error_fields ("Unknown action: " ++ "scroll")),
     if continue_on_error [("action", VStr "Scroll")] then None
     else Some (EOther ("Unknown action: " ++ "scroll"))).
Proof. apply unknown_action_step. reflexivity. Defined.




Lemma wp_and {A} (m : M A) Q1 Q2 X1 X2 s :
  wp m Q1 X1 s -> wp m Q2 X2 s ->
  wp m (fun a s' => Q1 a s' /\ Q2 a s') (fun e s' => X1 e s' /\ X2 e s') s.
Proof. unfold wp. destruct (m s) as [s' [e|a]]; auto. Qed.




(** A browser where every page call succeeds and every download event
    times out with message [m]. *)
Section Timeout.
Variable E : env.
Variable m : string.
Hypothesis calls_ok : forall s p o, e_call E s p o = None.
Hypothesis download_times_out : forall s p, e_download E s p = inl (ETimeout m).

Lemma download_trigger_timeout p sel text s :
  truthy sel || truthy text = true ->
  exists s', download_trigger E p sel text s = (s', inl (ETimeout m)) /\ s_sr s' = s_sr s.
Proof.
  intros H. unfold download_trigger.
  destruct (truthy sel).
  - unfold expect_download, call, log_call, bind, modify, raise_opt. simpl.
    rewrite calls_ok. simpl. rewrite download_times_out. eexists; split; reflexivity.
  - simpl in H. rewrite H.
    unfold expect_download, safe_click_by_text, try_catch, call, log_call, bind, modify,
      raise_opt, ret. simpl.
    rewrite calls_ok. simpl. rewrite download_times_out. eexists; split; reflexivity.
Qed.

Lemma body_download_timeout st s :
  has_key st "url" = false ->
  truthy (dget st "selector") || truthy (dget st "text") = true ->
  s_sr s = [] ->
  wp (body E "download" st)
     (fun _ s' => continue_on_error st = true /\
                  s_sr s' = error_fields ("download timeout: " ++ m))
     (fun e s' => continue_on_error st = false /\ e = ETimeout m /\
                  s_sr s' = error_fields ("download timeout: " ++ m))
     s.
Proof.
  intros Hu Hst H0. unfold body. apply wp_bind, wp_gets. cbv beta zeta. simpl.
  rewrite Hu, Hst. apply wp_try. apply wp_bind.
  destruct (download_trigger_timeout (s_page s) _ _ s Hst) as [s' [Hd Hsr]].
  unfold wp at 1. rewrite Hd. simpl. wp_tac; simpl; rewrite Hsr, H0;
    destruct (continue_on_error st); simpl in *; try discriminate; auto.
Qed.
End Timeout.

(** X9: when every page call succeeds and the download event times out with
    message [m], a browser-triggered download step (no url key, a truthy
    selector or text) records status error. With continue_on_error truthy the
    error is ["download timeout: " ++ m] and the loop goes on; otherwise the
    outer handler overwrites it with the bare [m] and the loop stops. *)
Theorem browser_download_timeout_step E m idx st s :
  (forall s p o, e_call E s p o = None) ->
  (forall s p, e_download E s p = inl (ETimeout m)) ->
  has_key st "url" = false ->
  truthy (dget st "selector") || truthy (dget st "text") = true ->
  if continue_on_error st
  then sr_fields (snd (fst (exec_step E idx "download" st s))) =
         error_fields ("download timeout: " ++ m) /\
       snd (exec_step E idx "download" st s) = None
  else sr_fields (snd (fst (exec_step E idx "download" st s))) = error_fields m /\
       snd (exec_step E idx "download" st s) = Some (ETimeout m).
Proof.
  intros Hc Hd Hu Hst.
  pose proof (body_download_timeout E m Hc Hd st (set_sr [] s) Hu Hst eq_refl) as Hb.
  unfold exec_step. unfold wp in Hb.
  destruct (body E "download" st (set_sr [] s)) as [s2 [e|u]].
  - destruct Hb as [Hcont [-> Hsr]]. rewrite Hcont. simpl. rewrite Hsr. split; reflexivity.
  - destruct Hb as [Hcont Hsr]. rewrite Hcont. simpl. rewrite Hsr. split; reflexivity.
Qed.

(** The same as [env_ok], with every download event timing out. *)
Definition env_download_timeout : env :=
  mkEnv "/app" "/app/downloads"
        (fun _ _ _ => None) (fun _ _ => inr []) (fun _ _ _ => inr "")
        (fun _ => true)
        (fun _ _ => inl (ETimeout "Timeout 30000ms exceeded while waiting for event download"))
        (fun _ _ => None) (fun _ _ => None) (fun _ _ => None)
        (fun _ => None) (fun _ => None).

Lemma browser_download_timeout_step_witness :
  if continue_on_error step_browser_download
  then sr_fields (snd (fst (exec_step env_download_timeout 1 "download" step_browser_download s_ready))) =
         error_fields ("download timeout: " ++ "Timeout 30000ms exceeded while waiting for event download") /\
       snd (exec_step env_download_timeout 1 "download" step_browser_download s_ready) = None
  else sr_fields (snd (fst (exec_step env_download_timeout 1 "download" step_browser_download s_ready))) =
         error_fields "Timeout 30000ms exceeded while waiting for event download" /\
       snd (exec_step env_download_timeout 1 "download" step_browser_download s_ready) =
         Some (ETimeout "Timeout 30000ms exceeded while waiting for event download").
Proof.
  apply (browser_download_timeout_step env_download_timeout
           "Timeout 30000ms exceeded while waiting for event download");
    [intros; reflexivity | intros; reflexivity | reflexivity | reflexivity].
Defined.

Lemma body_direct_fetch_log E st s p :
  has_key st "url" = true ->
  wp (body E "download" st) (fun _ s' => log_since s s' (fun e => fst e = p))
     (fun _ s' => log_since s s' (fun e => fst e = p)) s.
Proof.
  intros Hu. unfold body. wp_walk_on p (fun _ : string => True).
  all: drop_branches.
  all: try congruence; try (intros; exact I).
  all: frames_to_eqs; log_solve.
  Unshelve. all: exact 0.
Qed.

Lemma log_since_nowhere s s' :
  log_since s s' (fun e => fst e = 0) -> log_since s s' (fun e => fst e = 1) ->
  s_log s' = s_log s.
Proof.
  intros [l1 [H1 F1]] [l2 [H2 F2]]. rewrite H1 in H2.
  apply app_inv_tail in H2. subst l2.
  destruct l1 as [|e l]; [exact H1|].
  inversion F1; inversion F2; subst. lia.
Qed.

Lemma exec_direct_fetch_log E idx st s :
  has_key st "url" = true ->
  s_log (fst (fst (exec_step E idx "download" st s))) = s_log s.
Proof.
  intros Hu. apply log_since_nowhere.
  - apply exec_step_body; [intros d s'; unfold log_since; simpl; tauto|].
    apply (body_direct_fetch_log E st (set_sr [] s) 0 Hu).
  - apply exec_step_body; [intros d s'; unfold log_since; simpl; tauto|].
    apply (body_direct_fetch_log E st (set_sr [] s) 1 Hu).
Qed.

Lemma body_click_new_page_text E st s :
  truthy (dget st "selector") = false -> truthy (dget st "text") = true ->
  (forall s, e_new_page E s = true) -> (forall s p, e_call E s p OWaitLoad = None) ->
  s_sr s = [] ->
  wp (body E "click_new_page" st)
     (fun _ s' => s_sr s' = [("status", VStr "ok"); ("info", VStr "Opened new page via text")])
     (fun _ _ => False) s.
Proof.
  intros Hsel Htx Hnp Hwl H0. unfold body. apply wp_bind, wp_gets. cbv beta zeta. simpl.
  rewrite Hsel, Htx. unfold expect_page. apply wp_bind. apply wp_bind.
  eapply wp_mono;
    [apply (wp_and _ _ _ _ _ _ (safe_click_by_text_outcome E (s_page s) (dget st "text") s)
              (framed_safe_click E (s_page s) (fun _ => True) (dget st "text") s))
    | | intros ? ? [[] _]].
  intros r s1 [_ Hf]. destruct Hf as [_ _ Hsr _ _ _].
  unfold wp at 1. rewrite Hnp. simpl.
  unfold call, log_call. wp_tac. apply wp_raise_opt; [|intros e; rewrite Hwl; discriminate].
  intros _. wp_tac. simpl. rewrite Hsr, H0. reflexivity.
Qed.

(** X10: a download step with a url key makes no page call: the browser's
    log is the same after the step as before it, whether the fetch succeeds
    or fails. *)
Theorem direct_fetch_no_page_call E idx st s :
  has_key st "url" = true ->
  s_log (fst (fst (exec_step E idx "download" st s))) = s_log s.
Proof. apply exec_direct_fetch_log. Qed.

Lemma direct_fetch_no_page_call_witness :
  s_log (fst (fst (exec_step env_ok 1 "download" step_fetch s_ready))) = s_log s_ready.
Proof. apply direct_fetch_no_page_call. reflexivity. Defined.


(** X11: when the request of a direct-fetch download step fails with [e],
    the step records [{ok: False, error: str(e)}] and nothing else happens:
    no file, no download entry, and the loop goes on whatever the step's
    continue_on_error. *)
Theorem direct_fetch_request_failure_step E idx st s u e :
  lookup st "url" = Some u ->
  e_http E (set_sr [] s) u = Some e ->
  exec_step E idx "download" st s =
    (set_sr [("ok", VBool false); ("error", VStr (exn_msg e))] s,
     mkSR idx "download" st [("ok", VBool false); ("error", VStr (exn_msg e))], None).
Proof.
  intros Hu Hh. unfold exec_step, body. cbn. unfold has_key, dindex. rewrite Hu. cbn.
  unfold download_via_requests, try_catch, bind at 1. cbn. unfold raise_opt, bind, throw.
  rewrite Hh. cbn. destruct s; reflexivity.
Qed.

Definition step_fetch_missing : dict :=
  [("action", VStr "download"); ("url", VStr "https://example.test/missing.csv")].

Lemma direct_fetch_request_failure_step_witness :
  exec_step env_http_error 1 "download" step_fetch_missing s_ready =
    (set_sr [("ok", VBool false); ("error", VStr (exn_msg (EOther "404 Client Error: Not Found")))] s_ready,
     mkSR 1 "download" step_fetch_missing
          [("ok", VBool false); ("error", VStr (exn_msg (EOther "404 Client Error: Not Found")))],
     None).
Proof.
  apply (direct_fetch_request_failure_step env_http_error 1 step_fetch_missing s_ready
           (VStr "https://example.test/missing.csv")); reflexivity.
Defined.

(** X12: when a direct-fetch download step with [save_as] name [n] opens its
    destination [os.path.join(download_dir, n)] but writing the response then
    fails with [e], the step records [{ok: False, error: str(e)}] and the
    loop goes on; the destination file has been created and is left behind,
    while no download entry is added. *)
Theorem direct_fetch_stream_failure_step E idx st s u n e :
  lookup st "url" = Some u -> lookup st "save_as" = Some (VStr n) -> n <> "" ->
  e_http E (set_sr [] s) u = None ->
  e_open E (set_sr [] s) (path_join (e_download_dir E) n) = None ->
  e_stream E (set_files (path_join (e_cwd E) (path_join (e_download_dir E) n) :: s_files s)
                        (set_sr [] s)) u = Some e ->
  exec_step E idx "download" st s =
    (set_sr [("ok", VBool false); ("error", VStr (exn_msg e))]
       (set_files (path_join (e_cwd E) (path_join (e_download_dir E) n) :: s_files s) s),
     mkSR idx "download" st [("ok", VBool false); ("error", VStr (exn_msg e))], None).
Proof.
  intros Hu Hs Hn Hh Ho Hst.
  unfold exec_step, body. cbn. unfold has_key, dindex. rewrite Hu. cbn.
  unfold download_via_requests, try_catch, bind at 1. cbn. unfold raise_opt, bind, throw.
  rewrite Hh. cbn.
  assert (Ht : truthy (VStr n) = true).
  { simpl. destruct (String.eqb n "") eqn:He; [apply String.eqb_eq in He; contradiction|reflexivity]. }
  unfold dget, dget_or. rewrite Hs, Ht. cbn. rewrite Ho. cbn.
  unfold write_file, modify. cbn. rewrite Hst. cbn. destruct s; reflexivity.
Qed.

(** The same as [env_ok], with every response failing while it is
    written. *)
Definition env_stream_error : env :=
  mkEnv "/app" "/app/downloads"
        (fun _ _ _ => None) (fun _ _ => inr []) (fun _ _ _ => inr "")
        (fun _ => true) (fun _ _ => inr "report.csv")
        (fun _ _ => None) (fun _ _ => None)
        (fun _ _ => Some (EOther "Connection broken: IncompleteRead"))
        (fun _ => None) (fun _ => None).

Definition step_fetch_named : dict :=
  [("action", VStr "download"); ("url", VStr "https://example.test/file.csv");
   ("save_as", VStr "report.csv")].

Lemma direct_fetch_stream_failure_step_witness :
  exec_step env_stream_error 1 "download" step_fetch_named s_ready =
    (set_sr [("ok", VBool false); ("error", VStr (exn_msg (EOther "Connection broken: IncompleteRead")))]
       (set_files (path_join "/app" (path_join "/app/downloads" "report.csv") :: s_files s_ready)
                  s_ready),
     mkSR 1 "download" step_fetch_named
          [("ok", VBool false); ("error", VStr (exn_msg (EOther "Connection broken: IncompleteRead")))],
     None).
Proof.
  apply (direct_fetch_stream_failure_step env_stream_error 1 step_fetch_named s_ready
           (VStr "https://example.test/file.csv") "report.csv");
    [reflexivity | reflexivity | discriminate | reflexivity | reflexivity | reflexivity].
Defined.

(** X13: a click_new_page step by text (no truthy selector) ignores whether
    [_safe_click_by_text] clicked anything: when a new page appears and
    loads, the step records status ok with ["Opened new page via text"], even
    if the text matched nothing. *)
Theorem click_new_page_text_ignores_click E idx st s :
  truthy (dget st "selector") = false -> truthy (dget st "text") = true ->
  (forall s, e_new_page E s = true) -> (forall s p, e_call E s p OWaitLoad = None) ->
  sr_fields (snd (fst (exec_step E idx "click_new_page" st s))) =
    [("status", VStr "ok"); ("info", VStr "Opened new page via text")] /\
  snd (exec_step E idx "click_new_page" st s) = None.
Proof.
  intros Hsel Htx Hnp Hwl.
  pose proof (body_click_new_page_text E st (set_sr [] s) Hsel Htx Hnp Hwl eq_refl) as Hb.
  unfold exec_step. unfold wp in Hb.
  destruct (body E "click_new_page" st (set_sr [] s)) as [s2 [e|u]]; [destruct Hb|].
  split; [exact Hb | reflexivity].
Qed.

Lemma click_new_page_text_ignores_click_witness :
  sr_fields (snd (fst (exec_step env_text_missing 1 "click_new_page" step_open_report s_ready))) =
    [("status", VStr "ok"); ("info", VStr "Opened new page via text")] /\
  snd (exec_step env_text_missing 1 "click_new_page" step_open_report s_ready) = None.
Proof.
  apply click_new_page_text_ignores_click;
    [reflexivity | reflexivity | intros; reflexivity | intros; reflexivity].
Defined.
